(** * small_c-shell: a shallow embedding of [main.c]

  The shell reads a line, splits it into arguments, and either runs one of
  its three built-ins or forks a child that redirects its standard streams
  and replaces its image.  This development embeds the functions of
  [main.c] as Rocq functions over an explicit process state and proves the
  properties of its job-control core.

  Conventions.
  - A C [int] is a [Z]; a C string is a [string] (the bytes before the
    terminating NUL).
  - A process is a record: its globals, its descriptor table, its signal
    dispositions and the trace of library and system calls it has made.
    What the kernel answers to each call is read from an oracle stored in
    the process, so every theorem quantifies over every kernel behaviour.
  - [fork] is modelled from the point of view of one process: the same
    function [other_cmd] describes the parent (fork returned a pid) and the
    child (fork returned 0).
  - Code that never returns ([exit], a successful [execvp]) and undefined
    behaviour (a null dereference, an overflowing [strcpy]) are outcomes of
    their own.
  - The handler of the suspend signal is a state transformer of its own,
    [handle_SIG]; the other functions are run without a delivery in their
    middle, so each of them reads one value of [stop_background]. *)

From Stdlib Require Import ZArith List String Ascii Bool Lia DecimalString.
From ExtLib Require Import Structures.Monad.
Import ListNotations.
Import MonadNotation.

Local Open Scope string_scope.
Local Open Scope list_scope.
Local Open Scope Z_scope.
Local Open Scope monad_scope.

Set Implicit Arguments.

(** ** C strings *)

Module CStr.

Infix "+++" := String.append (at level 60, right associativity).

(** The newline and space characters of the C source. *)
Definition nl_char : ascii := ascii_of_nat 10.
Definition sp_char : ascii := ascii_of_nat 32.
Definition nl : string := String nl_char EmptyString.

(** [printf("%d", n)]. *)
Definition dec (n : Z) : string := NilZero.string_of_int (Z.to_int n).

(** [strlen] as a C [int]. *)
Definition strlen (s : string) : Z := Z.of_nat (String.length s).

(** The first [n] bytes of [s], as [write(fd, s, n)] sends them. *)
Definition bytes (n : Z) (s : string) : string := substring 0 (Z.to_nat n) s.

(** [strspn]-like: drop the leading bytes equal to the delimiter. *)
Fixpoint skip_delims (d : ascii) (s : string) : string :=
  match s with
  | EmptyString => EmptyString
  | String c s' => if Ascii.eqb c d then skip_delims d s' else s
  end.

(** [strcspn]-like: the bytes before the first delimiter, and what follows
    that delimiter ([None] when the string ends first). *)
Fixpoint break_at (d : ascii) (s : string) : string * option string :=
  match s with
  | EmptyString => (EmptyString, None)
  | String c s' =>
      if Ascii.eqb c d then (EmptyString, Some s')
      else let (tok, rest) := break_at d s' in (String c tok, rest)
  end.

(** [strtok_r(s, d, &saveptr)] for a one-character delimiter string, as
    the C library defines it: skip the leading delimiters; if nothing is
    left return NULL; otherwise the token runs to the next delimiter, which
    is overwritten by NUL, and [saveptr] points just after it (or at the
    end of the string).  The result is the token and the new [saveptr]. *)
Definition strtok_r (d : ascii) (s : string) : option (string * string) :=
  match skip_delims d s with
  | EmptyString => None
  | String c s' =>
      let (tok, rest) := break_at d (String c s') in
      Some (tok, match rest with Some r => r | None => EmptyString end)
  end.

(** The C string found at the start of a buffer after [strtok(buf, d)]
    has run on it: the leading delimiters are left in place and the first
    delimiter after the first token is replaced by NUL. *)
Fixpoint buffer_after_strtok (d : ascii) (s : string) : string :=
  match s with
  | EmptyString => EmptyString
  | String c s' =>
      if Ascii.eqb c d then String c (buffer_after_strtok d s')
      else fst (break_at d s)
  end.

(** [s[0]], the NUL of an empty string being character 0. *)
Definition first_char (s : string) : ascii :=
  match s with
  | EmptyString => zero
  | String c _ => c
  end.

End CStr.
Import CStr.

(** ** Wait statuses ([<sys/wait.h>]) *)

Module WaitStatus.

(** The macros of the C library, on the status word [waitpid] stores. *)
Definition WTERMSIG (status : Z) : Z := Z.land status 127.
Definition WIFEXITED (status : Z) : bool := WTERMSIG status =? 0.
Definition WEXITSTATUS (status : Z) : Z := Z.shiftr (Z.land status 65280) 8.

(** How a child ends, and the status word the kernel builds for it. *)
Inductive termination : Type :=
| Exited (code : Z)
| Signaled (sig : Z) (core : bool).

Definition wait_status (t : termination) : Z :=
  match t with
  | Exited code => Z.shiftl (Z.land code 255) 8
  | Signaled sig core => Z.lor sig (if core then 128 else 0)
  end.

Definition WNOHANG : Z := 1.

End WaitStatus.
Import WaitStatus.

(** ** The process and the kernel *)

Module Sys.

(** Constants of [<unistd.h>], [<fcntl.h>] and [<signal.h>] (Linux). *)
Definition STDIN_FILENO : Z := 0.
Definition STDOUT_FILENO : Z := 1.
Definition O_RDONLY : Z := 0.
Definition O_WRONLY : Z := 1.
Definition O_CREAT : Z := 64.
Definition O_TRUNC : Z := 512.
Definition SIGINT : Z := 2.
Definition SIGTSTP : Z := 20.
Definition SA_RESTART : Z := 268435456.
Definition SA_RESETHAND : Z := 2147483648.

(** What [sa_handler] can hold in this program. *)
Inductive handler : Type :=
| SIG_DFL
| SIG_IGN
| Handler_handle_SIG.

(** [struct sigaction]: the handler, whether [sigfillset] filled the mask,
    and the flags. *)
Record sigaction_t : Type := {
  sa_handler : handler;
  sa_mask_full : bool;
  sa_flags : Z
}.

(** [struct sigaction x = { 0 }]. *)
Definition sigaction_zero : sigaction_t :=
  {| sa_handler := SIG_DFL; sa_mask_full := false; sa_flags := 0 |}.

(** An entry of the descriptor table: the path it was opened on and the
    [open] flags. *)
Record open_file : Type := {
  of_path : string;
  of_flags : Z
}.

(** The calls a process makes, with their arguments and, for the calls whose
    answer the program uses, the value returned. *)
Inductive event : Type :=
| EvPrintf (text : string)
| EvFflush
| EvWrite (fd : Z) (data : string)
| EvPerror (text : string)
| EvFork (ret : Z)
| EvWaitpid (pid options ret : Z)
| EvOpen (path : string) (flags mode ret : Z)
| EvDup2 (oldfd newfd ret : Z)
| EvClose (fd : Z)
| EvSigaction (signo : Z) (act : sigaction_t)
| EvChdir (path : option string) (ret : Z)
| EvExecvp (file : string) (argv : list string)
| EvExit (code : Z).

(** What the kernel will answer: whether a path can be opened with given
    flags, whether a [dup2] goes through, whether a program can be loaded,
    whether a directory can be entered, and the value of [HOME]. *)
Record kernel : Type := {
  k_open_ok : string -> Z -> bool;
  k_dup2_ok : Z -> Z -> bool;
  k_exec_ok : string -> bool;
  k_chdir_ok : option string -> bool;
  k_home : option string
}.

(** A process.  [forks] lists what the coming [fork] calls return in this
    process (the child's pid in the parent, 0 in the child, -1 on failure)
    and [waits] what the coming [waitpid] calls return, with the status
    they store. *)
Record process : Type := {
  stop_background : Z;
  pid : Z;
  fds : list (option open_file);
  sigint_action : sigaction_t;
  sigtstp_action : sigaction_t;
  forks : list Z;
  waits : list (Z * Z);
  kern : kernel;
  trace : list event
}.

Definition with_stop_background (v : Z) (p : process) : process :=
  {| stop_background := v; pid := pid p; fds := fds p;
     sigint_action := sigint_action p; sigtstp_action := sigtstp_action p;
     forks := forks p; waits := waits p; kern := kern p; trace := trace p |}.

Definition with_fds (v : list (option open_file)) (p : process) : process :=
  {| stop_background := stop_background p; pid := pid p; fds := v;
     sigint_action := sigint_action p; sigtstp_action := sigtstp_action p;
     forks := forks p; waits := waits p; kern := kern p; trace := trace p |}.

Definition with_sigint (v : sigaction_t) (p : process) : process :=
  {| stop_background := stop_background p; pid := pid p; fds := fds p;
     sigint_action := v; sigtstp_action := sigtstp_action p;
     forks := forks p; waits := waits p; kern := kern p; trace := trace p |}.

Definition with_sigtstp (v : sigaction_t) (p : process) : process :=
  {| stop_background := stop_background p; pid := pid p; fds := fds p;
     sigint_action := sigint_action p; sigtstp_action := v;
     forks := forks p; waits := waits p; kern := kern p; trace := trace p |}.

Definition with_forks (v : list Z) (p : process) : process :=
  {| stop_background := stop_background p; pid := pid p; fds := fds p;
     sigint_action := sigint_action p; sigtstp_action := sigtstp_action p;
     forks := v; waits := waits p; kern := kern p; trace := trace p |}.

Definition with_waits (v : list (Z * Z)) (p : process) : process :=
  {| stop_background := stop_background p; pid := pid p; fds := fds p;
     sigint_action := sigint_action p; sigtstp_action := sigtstp_action p;
     forks := forks p; waits := v; kern := kern p; trace := trace p |}.

(** Append one call to the trace. *)
Definition log (e : event) (p : process) : process :=
  {| stop_background := stop_background p; pid := pid p; fds := fds p;
     sigint_action := sigint_action p; sigtstp_action := sigtstp_action p;
     forks := forks p; waits := waits p; kern := kern p;
     trace := trace p ++ [e] |}.

(** Undefined behaviour the C code can run into: a null pointer passed to a
    string function, a [strcpy] or an array store past the end of its
    target, a read of a buffer that was never written.  [OutOfFuel] is not a
    behaviour of the program: it marks a bounded loop of the model that was
    given too little fuel, which the fuel the model provides rules out. *)
Inductive fault : Type :=
| NullDeref
| BufferOverflow
| UninitRead
| OutOfFuel.

(** How running a piece of code from a state ends: it returns a value, the
    process calls [exit], its image is replaced by [execvp], or it faults. *)
Inductive outcome (A : Type) : Type :=
| Ret (a : A) (p : process)
| Exit (code : Z) (p : process)
| Exec (file : string) (argv : list string) (p : process)
| Fault (f : fault) (p : process).

Arguments Exit {A} code p.
Arguments Exec {A} file argv p.
Arguments Fault {A} f p.

Definition M (A : Type) : Type := process -> outcome A.

Definition m_ret {A : Type} (a : A) : M A := fun p => Ret a p.

Definition m_bind {A B : Type} (c : M A) (k : A -> M B) : M B :=
  fun p =>
    match c p with
    | Ret a p' => k a p'
    | Exit code p' => Exit code p'
    | Exec file argv p' => Exec file argv p'
    | Fault f p' => Fault f p'
    end.

#[export] Instance Monad_M : Monad M := {| ret := @m_ret; bind := @m_bind |}.

(** The state a run ends in. *)
Definition final {A : Type} (o : outcome A) : process :=
  match o with
  | Ret _ p => p
  | Exit _ p => p
  | Exec _ _ p => p
  | Fault _ p => p
  end.

(** The calls made between state [p] and a later state [p']. *)
Definition events_since (p p' : process) : list event :=
  skipn (List.length (trace p)) (trace p').

(** *** The descriptor table *)

Definition get_fd (t : list (option open_file)) (fd : Z) : option open_file :=
  if fd <? 0 then None else nth (Z.to_nat fd) t None.

Fixpoint set_fd (n : nat) (v : option open_file) (t : list (option open_file))
  : list (option open_file) :=
  match n, t with
  | O, [] => [v]
  | O, _ :: t' => v :: t'
  | S n', [] => None :: set_fd n' v []
  | S n', x :: t' => x :: set_fd n' v t'
  end.

(** The lowest descriptor that is not open. *)
Fixpoint lowest_free (t : list (option open_file)) : nat :=
  match t with
  | [] => O
  | None :: _ => O
  | Some _ :: t' => S (lowest_free t')
  end.

(** *** Library and system calls *)

Definition printf (text : string) : M unit :=
  fun p => Ret tt (log (EvPrintf text) p).

Definition fflush_stdout : M unit :=
  fun p => Ret tt (log EvFflush p).

Definition perror (text : string) : M unit :=
  fun p => Ret tt (log (EvPerror text) p).

Definition write (fd : Z) (buf : string) (count : Z) : M unit :=
  fun p => Ret tt (log (EvWrite fd (bytes count buf)) p).

Definition exit {A : Type} (code : Z) : M A :=
  fun p => Exit code (log (EvExit code) p).

Definition getpid : M Z := fun p => Ret (pid p) p.

Definition getenv_HOME : M (option string) := fun p => Ret (k_home (kern p)) p.

Definition chdir (path : option string) : M Z :=
  fun p =>
    let r := if k_chdir_ok (kern p) path then 0 else -1 in
    Ret r (log (EvChdir path r) p).

Definition fork : M Z :=
  fun p =>
    match forks p with
    | [] => Ret (-1) (log (EvFork (-1)) p)
    | r :: rest => Ret r (log (EvFork r) (with_forks rest p))
    end.

(** [waitpid(pid, &status, options)]: the result is the value returned and
    the content of [status] after the call, which is written only when a
    child was collected. *)
Definition waitpid (pid status options : Z) : M (Z * Z) :=
  fun p =>
    match waits p with
    | [] => Ret (-1, status) (log (EvWaitpid pid options (-1)) p)
    | (r, st) :: rest =>
        Ret (r, if 0 <? r then st else status)
            (log (EvWaitpid pid options r) (with_waits rest p))
    end.

Definition open (path : string) (flags mode : Z) : M Z :=
  fun p =>
    if k_open_ok (kern p) path flags then
      let fd := lowest_free (fds p) in
      Ret (Z.of_nat fd)
          (log (EvOpen path flags mode (Z.of_nat fd))
               (with_fds (set_fd fd (Some {| of_path := path; of_flags := flags |})
                                 (fds p)) p))
    else Ret (-1) (log (EvOpen path flags mode (-1)) p).

Definition dup2 (oldfd newfd : Z) : M Z :=
  fun p =>
    match get_fd (fds p) oldfd with
    | Some f =>
        if (0 <=? newfd) && k_dup2_ok (kern p) oldfd newfd then
          Ret newfd
              (log (EvDup2 oldfd newfd newfd)
                   (with_fds (set_fd (Z.to_nat newfd) (Some f) (fds p)) p))
        else Ret (-1) (log (EvDup2 oldfd newfd (-1)) p)
    | None => Ret (-1) (log (EvDup2 oldfd newfd (-1)) p)
    end.

Definition close (fd : Z) : M unit :=
  fun p =>
    match get_fd (fds p) fd with
    | Some _ => Ret tt (log (EvClose fd) (with_fds (set_fd (Z.to_nat fd) None (fds p)) p))
    | None => Ret tt (log (EvClose fd) p)
    end.

Definition sigaction (signo : Z) (act : sigaction_t) : M unit :=
  fun p =>
    let p' :=
      if signo =? SIGINT then with_sigint act p
      else if signo =? SIGTSTP then with_sigtstp act p
      else p in
    Ret tt (log (EvSigaction signo act) p').

(** [execvp] returns only when the program could not be loaded. *)
Definition execvp (file : string) (argv : list string) : M Z :=
  fun p =>
    if k_exec_ok (kern p) file then Exec file argv (log (EvExecvp file argv) p)
    else Ret (-1) (log (EvExecvp file argv) p).

Definition raise {A : Type} (f : fault) : M A := fun p => Fault f p.

End Sys.
Import Sys.

(** ** The shell ([main.c]) *)

(** [struct shell_info]. *)
Record shell_info : Type := {
  background : Z;
  exit_status : Z;
  output_redirect : Z;
  input_redirect : Z;
  output_filename : string;
  input_filename : string
}.

Definition set_background (v : Z) (info : shell_info) : shell_info :=
  {| background := v; exit_status := exit_status info;
     output_redirect := output_redirect info; input_redirect := input_redirect info;
     output_filename := output_filename info; input_filename := input_filename info |}.

Definition set_exit_status (v : Z) (info : shell_info) : shell_info :=
  {| background := background info; exit_status := v;
     output_redirect := output_redirect info; input_redirect := input_redirect info;
     output_filename := output_filename info; input_filename := input_filename info |}.

Definition set_output_redirect (v : Z) (info : shell_info) : shell_info :=
  {| background := background info; exit_status := exit_status info;
     output_redirect := v; input_redirect := input_redirect info;
     output_filename := output_filename info; input_filename := input_filename info |}.

Definition set_input_redirect (v : Z) (info : shell_info) : shell_info :=
  {| background := background info; exit_status := exit_status info;
     output_redirect := output_redirect info; input_redirect := v;
     output_filename := output_filename info; input_filename := input_filename info |}.

Definition set_output_filename (v : string) (info : shell_info) : shell_info :=
  {| background := background info; exit_status := exit_status info;
     output_redirect := output_redirect info; input_redirect := input_redirect info;
     output_filename := v; input_filename := input_filename info |}.

Definition set_input_filename (v : string) (info : shell_info) : shell_info :=
  {| background := background info; exit_status := exit_status info;
     output_redirect := output_redirect info; input_redirect := input_redirect info;
     output_filename := output_filename info; input_filename := v |}.

(** [init_shell_info]: three assignments and two [memset]s; [exit_status] is
    not assigned. *)
Definition init_shell_info (info : shell_info) : shell_info :=
  let info := set_background 0 info in
  let info := set_input_redirect 0 info in
  let info := set_output_redirect 0 info in
  let info := set_input_filename EmptyString info in
  set_output_filename EmptyString info.

(** *** Built-in commands *)

Definition my_exit : M Z :=
  printf ("exiting shell " +++ nl) ;;
  fflush_stdout ;;
  ret 0.

(** [my_cd]: [args[1]] is the second element of the argument vector. *)
Definition my_cd (args : list string) : M unit :=
  match nth_error args 1 with
  | None =>
      home <- getenv_HOME ;;
      r <- chdir home ;;
      if negb (r =? 0) then printf "chdir() failed" else ret tt
  | Some dir =>
      r <- chdir (Some dir) ;;
      if negb (r =? 0) then printf "chdir() failed" else ret tt
  end.

Definition my_status (exit_status : Z) : M unit :=
  if WIFEXITED exit_status then
    printf ("exit value " +++ dec (WEXITSTATUS exit_status) +++ " " +++ nl) ;;
    fflush_stdout
  else
    printf ("terminated by signal " +++ dec (WTERMSIG exit_status) +++ " " +++ nl) ;;
    fflush_stdout.

(** *** I/O redirection *)

Definition output_redirection (filename : string) : M unit :=
  fd <- open filename (Z.lor (Z.lor O_WRONLY O_CREAT) O_TRUNC) 511 ;;
  (if fd =? -1 then
     perror ("Output file could not be opened " +++ nl) ;; exit 1
   else ret tt) ;;
  d <- dup2 fd 1 ;;
  (if d =? -1 then
     perror "Output file could not be redirected" ;; exit 1
   else ret tt) ;;
  close fd.

Definition input_redirection (filename : string) : M unit :=
  fd <- open filename O_RDONLY 0 ;;
  (if fd =? -1 then
     perror ("Input file could not be opened " +++ nl) ;; exit 1
   else ret tt) ;;
  d <- dup2 fd 0 ;;
  (if d =? -1 then
     perror "Input file could not be redirected" ;; exit 0
   else ret tt) ;;
  close fd.

(** *** Reading and parsing a line *)

(** [get_input].  [incoming] is what [fgets] stores in [buf]: the bytes of one
    line through its newline, or nothing at the end of the input, when [buf]
    keeps its indeterminate content and the code goes on to read it. *)
Definition get_input (incoming : option string) : M string :=
  printf ": " ;;
  fflush_stdout ;;
  match incoming with
  | None => raise UninitRead
  | Some buf => ret (buffer_after_strtok nl_char buf)
  end.

(** [args[i] = ...] with [i] the number of arguments stored so far; the array
    has 512 slots, and a store at index 512 or beyond is a fault.  The list
    holds the strings stored, in order.  Two things the source does with the
    heap and the array are outside this model and are no fault of it: the
    block [malloc(strlen(token))] is one byte short of what [strcpy] writes
    into it, and once all 512 slots are filled no NULL entry follows them for
    the code that later reads the array up to its NULL ([execvp],
    [free_memory]). *)
Definition store_arg (args : list string) (token : string) : fault + list string :=
  if 512 <=? Z.of_nat (List.length args) then inl BufferOverflow
  else inr (args ++ [token]).

(** [strcpy] of a token into one of the 256-byte file name fields. *)
Definition strcpy_filename (token : option string) : fault + string :=
  match token with
  | None => inl NullDeref
  | Some t => if 256 <=? strlen t then inl BufferOverflow else inr t
  end.

(** The [while] loop of [parse_line].  Every turn consumes at least one byte
    of [saveptr], so [fuel] bounds the turns by the length of the line.
    The sizes passed to [malloc] are not modelled: an argument is the string
    copied into it. *)
Fixpoint parse_rest (fuel : nat) (pid : Z) (saveptr : string)
  (info : shell_info) (args : list string) : fault + (shell_info * list string) :=
  match fuel with
  | O => inl OutOfFuel
  | S fuel' =>
      match strtok_r sp_char saveptr with
      | None => inr (info, args)
      | Some (token, saveptr) =>
          if String.eqb token "<" then
            let info := set_input_redirect 1 info in
            let next := strtok_r sp_char saveptr in
            match strcpy_filename (option_map fst next) with
            | inl f => inl f
            | inr name =>
                parse_rest fuel' pid
                  (match next with Some (_, s) => s | None => EmptyString end)
                  (set_input_filename name info) args
            end
          else if String.eqb token ">" then
            let info := set_output_redirect 1 info in
            let next := strtok_r sp_char saveptr in
            match strcpy_filename (option_map fst next) with
            | inl f => inl f
            | inr name =>
                parse_rest fuel' pid
                  (match next with Some (_, s) => s | None => EmptyString end)
                  (set_output_filename name info) args
            end
          else if String.eqb token "&" then
            parse_rest fuel' pid saveptr (set_background 1 info) args
          else if String.eqb token "$$" then
            match store_arg args (dec pid) with
            | inl f => inl f
            | inr args => parse_rest fuel' pid saveptr info args
            end
          else
            match store_arg args token with
            | inl f => inl f
            | inr args => parse_rest fuel' pid saveptr info args
            end
      end
  end.

(** [parse_line]: the first token is stored without being examined; [pid] is
    what [getpid] returns. *)
Definition parse_line (pid : Z) (line : string) (info : shell_info)
  : fault + (shell_info * list string) :=
  match strtok_r sp_char line with
  | None => inl NullDeref
  | Some (token, saveptr) =>
      match store_arg [] token with
      | inl f => inl f
      | inr args => parse_rest (S (String.length line)) pid saveptr info args
      end
  end.

Definition lift {A : Type} (r : fault + A) : M A :=
  match r with
  | inl f => raise f
  | inr a => ret a
  end.

(** *** Signals *)

Definition handle_SIG (signo : Z) : M unit :=
  fun p =>
    if stop_background p =? 0 then
      (write STDOUT_FILENO ("Entering foreground-only mode (& is now ignored) " +++ nl) 50 ;;
       fflush_stdout ;;
       fun p => Ret tt (with_stop_background 1 p)) p
    else
      (write STDOUT_FILENO ("Exiting foreground-only mode " +++ nl) 30 ;;
       fflush_stdout ;;
       fun p => Ret tt (with_stop_background 0 p)) p.

Definition custom_SIG : M unit :=
  sigaction SIGINT
    {| sa_handler := SIG_IGN; sa_mask_full := true; sa_flags := SA_RESTART |}.

Definition custom_SIGTSTP : M unit :=
  sigaction SIGTSTP
    {| sa_handler := Handler_handle_SIG; sa_mask_full := true; sa_flags := SA_RESTART |}.

Definition custom_IG : M unit :=
  sigaction SIGTSTP
    {| sa_handler := SIG_IGN; sa_mask_full := true; sa_flags := SA_RESTART |}.

(** *** Running commands *)

(** [info->background && !stop_background]. *)
Definition run_in_background (info : shell_info) (p : process) : bool :=
  negb (background info =? 0) && (stop_background p =? 0).

(** [other_cmd].  [args[0]] exists: [execute_cmd] has compared it. *)
Definition other_cmd (args : list string) (info : shell_info) : M shell_info :=
  spawnPid <- fork ;;
  if spawnPid =? -1 then
    perror ("fork() " +++ nl) ;; exit 1
  else if spawnPid =? 0 then
    custom_IG ;;
    (fun p =>
       if run_in_background info p then
         (me <- getpid ;;
          printf ("background pid is " +++ dec me +++ " " +++ nl) ;;
          fflush_stdout ;;
          (if negb (output_redirect info =? 0) then ret tt
           else output_redirection "/dev/null") ;;
          (if negb (input_redirect info =? 0) then ret tt
           else input_redirection "/dev/null")) p
       else
         sigaction SIGINT
           {| sa_handler := SIG_DFL; sa_mask_full := true; sa_flags := SA_RESETHAND |} p) ;;
    (if negb (input_redirect info =? 0) then input_redirection (input_filename info)
     else ret tt) ;;
    (if negb (output_redirect info =? 0) then output_redirection (output_filename info)
     else ret tt) ;;
    execvp (hd EmptyString args) args ;;
    perror "execvp" ;;
    exit 2
  else
    fun p =>
      if run_in_background info p then
        (r <- waitpid spawnPid (exit_status info) WNOHANG ;;
         ret (set_exit_status (snd r) info)) p
      else
        (r <- waitpid spawnPid (exit_status info) 0 ;;
         let info := set_exit_status (snd r) info in
         (if negb (exit_status info =? 0) then my_status (exit_status info)
          else ret tt) ;;
         ret info) p.

(** The [while] loop at the end of [execute_cmd]: one turn for each answer of
    [waitpid(-1, &info->exit_status, WNOHANG)], until one is not positive.
    A child is collected at most once, so the answers the kernel still has to
    give bound the turns; [fuel] is one more than their number. *)
Fixpoint reap (fuel : nat) (info : shell_info) : M shell_info :=
  match fuel with
  | O => raise OutOfFuel
  | S fuel' =>
      r <- waitpid (-1) (exit_status info) WNOHANG ;;
      let info := set_exit_status (snd r) info in
      if 0 <? fst r then
        printf ("background pid " +++ dec (fst r) +++ " is done: ") ;;
        fflush_stdout ;;
        my_status (exit_status info) ;;
        reap fuel' info
      else ret info
  end.

(** [execute_cmd]: the value returned and the updated [*info]. *)
Definition execute_cmd (args : list string) (info : shell_info) : M (Z * shell_info) :=
  match args with
  | [] => raise NullDeref
  | arg0 :: _ =>
      r <- (if String.eqb arg0 "exit" then
              status <- my_exit ;; ret (status, info)
            else if String.eqb arg0 "cd" then
              my_cd args ;; ret (1, info)
            else if String.eqb arg0 "status" then
              my_status (exit_status info) ;; ret (1, info)
            else if String.eqb arg0 nl || Ascii.eqb (first_char arg0) "#"%char then
              ret (1, info)
            else
              info <- other_cmd args info ;; ret (1, info)) ;;
      info <- (fun p => reap (S (List.length (waits p))) (snd r) p) ;;
      ret (fst r, info)
  end.

(** The [do ... while (status)] loop of [small_shell], one turn for each line
    the input still holds.  The call [free_memory(line, args)] that ends a
    turn is not modelled: it frees the heap blocks and reads [args] up to its
    NULL entry.  No suspend signal is delivered inside this function; a
    delivery is a run of [handle_SIG] on the state between two runs. *)
Fixpoint shell_loop (input : list string) (info : shell_info) : M unit :=
  let info := init_shell_info info in
  match input with
  | [] => _ <- get_input None ;; ret tt
  | incoming :: input' =>
      line <- get_input (Some incoming) ;;
      me <- getpid ;;
      parsed <- lift (parse_line me line info) ;;
      r <- execute_cmd (snd parsed) (fst parsed) ;;
      if negb (fst r =? 0) then shell_loop input' (snd r) else ret tt
  end.

(** [small_shell].  [info] is a local variable without initialiser: [stack]
    is whatever the stack holds where it is allocated. *)
Definition small_shell (stack : shell_info) (input : list string) : M unit :=
  custom_SIG ;;
  custom_SIGTSTP ;;
  printf ("small c-shell, enter shell commands like ls or echo " +++ nl) ;;
  fflush_stdout ;;
  shell_loop input stack.

(** ** Vocabulary of the properties *)

(** Whether the shell is in foreground-only mode: the truth value C gives to
    [stop_background]. *)
Definition foreground_only (p : process) : bool := negb (stop_background p =? 0).

Definition enter_message : string :=
  "Entering foreground-only mode (& is now ignored)".

Definition exit_message : string :=
  "Exiting foreground-only mode".

(** The words of a line: the maximal runs of bytes other than the delimiter,
    in order.  [cur] is the word being read. *)
Fixpoint words (d : ascii) (cur : string) (s : string) : list string :=
  match s with
  | EmptyString =>
      match cur with
      | EmptyString => []
      | _ => [cur]
      end
  | String c s' =>
      if Ascii.eqb c d then
        match cur with
        | EmptyString => words d EmptyString s'
        | _ => cur :: words d EmptyString s'
        end
      else words d (cur +++ String c EmptyString) s'
  end.

(** The tokens of an input line: its words between spaces. *)
Definition tokens (line : string) : list string := words sp_char EmptyString line.

(** Whether a list of tokens (those after the command name) holds an [&] in
    argument position: an [&] other than one taken as the file name of a
    [<] or [>] before it. *)
Fixpoint amp_argument (toks : list string) : bool :=
  match toks with
  | [] => false
  | t :: rest =>
      if String.eqb t "<" || String.eqb t ">" then
        match rest with
        | [] => false
        | _ :: rest' => amp_argument rest'
        end
      else if String.eqb t "&" then true
      else amp_argument rest
  end.

(** A line of [n] spaces. *)
Fixpoint spaces (n : nat) : string :=
  match n with
  | O => EmptyString
  | S n' => String sp_char (spaces n')
  end.

(** The statement of C7 as the specification words it: after a successful
    parse of a line read into a freshly reset [shell_info], the background
    flag is set exactly when the last token of the line is [&]. *)
Definition background_iff_trailing_amp : Prop :=
  forall (pid : Z) (line : string) (info info' : shell_info) (args : list string),
    parse_line pid line (init_shell_info info) = inr (info', args) ->
    (background info' <> 0 <-> last (tokens line) EmptyString = "&").

(** The line [my_status] prints for a status word. *)
Definition status_text (status : Z) : string :=
  if WIFEXITED status
  then "exit value " +++ dec (WEXITSTATUS status) +++ " " +++ nl
  else "terminated by signal " +++ dec (WTERMSIG status) +++ " " +++ nl.


(** The announcement of a background start: a [printf] whose text begins
    with [background pid is]. *)
Definition is_announcement (e : event) : bool :=
  match e with
  | EvPrintf text => prefix "background pid is " text
  | _ => false
  end.

Definition announced (t : list event) : bool := existsb is_announcement t.

(** Running [c] from [p] adds calls to the trace, none of them an
    announcement. *)
Definition silent_at {A : Type} (c : M A) (p : process) : Prop :=
  exists l, trace (final (c p)) = trace p ++ l /\ announced l = false.

(** The flags of the two [open] calls. *)
Definition output_flags : Z := Z.lor (Z.lor O_WRONLY O_CREAT) O_TRUNC.

Definition null_in : open_file := {| of_path := "/dev/null"; of_flags := O_RDONLY |}.
Definition null_out : open_file := {| of_path := "/dev/null"; of_flags := output_flags |}.

(** The state after a successful [open]. *)
Definition opened (filename : string) (flags mode : Z) (p : process) : process :=
  log (EvOpen filename flags mode (Z.of_nat (lowest_free (fds p))))
    (with_fds (set_fd (lowest_free (fds p))
                 (Some {| of_path := filename; of_flags := flags |}) (fds p)) p).

(** The state after a successful redirection of descriptor [target]. *)
Definition redirected (filename : string) (flags mode : Z) (target : Z)
  (p : process) : process :=
  let fd := lowest_free (fds p) in
  let f := {| of_path := filename; of_flags := flags |} in
  log (EvClose (Z.of_nat fd))
    (with_fds (set_fd fd None (set_fd (Z.to_nat target) (Some f) (set_fd fd (Some f) (fds p))))
       (log (EvDup2 (Z.of_nat fd) target target)
          (with_fds (set_fd (Z.to_nat target) (Some f) (set_fd fd (Some f) (fds p)))
             (opened filename flags mode p)))).

(** [c] is silent from every state. *)
Definition silent {A : Type} (c : M A) : Prop := forall p, silent_at c p.

(** The dispositions the child installs. *)
Definition ignore_action : sigaction_t :=
  {| sa_handler := SIG_IGN; sa_mask_full := true; sa_flags := SA_RESTART |}.

Definition default_once_action : sigaction_t :=
  {| sa_handler := SIG_DFL; sa_mask_full := true; sa_flags := SA_RESETHAND |}.

(** The child just after [fork] has returned 0 and [custom_IG] has run. *)
Definition child_start (fs : list Z) (p : process) : process :=
  log (EvSigaction SIGTSTP ignore_action)
    (with_sigtstp ignore_action (log (EvFork 0) (with_forks fs p))).

(** The parent just after [fork] has returned [child]. *)
Definition parent_start (child : Z) (fs : list Z) (p : process) : process :=
  log (EvFork child) (with_forks fs p).

(** What the child does after its mode-dependent set-up: the explicit
    redirections, then the image replacement. *)
Definition child_finish (args : list string) (info : shell_info) : M shell_info :=
  (if negb (input_redirect info =? 0) then input_redirection (input_filename info)
   else ret tt) ;;
  (if negb (output_redirect info =? 0) then output_redirection (output_filename info)
   else ret tt) ;;
  execvp (hd EmptyString args) args ;;
  perror "execvp" ;;
  exit 2.

(** What the next [waitpid] returns and leaves in a status word that held
    [status]. *)
Definition wait_answer (p : process) (status : Z) : Z * Z :=
  match waits p with
  | [] => (-1, status)
  | (r, st) :: _ => (r, if 0 <? r then st else status)
  end.

(** The text of the background-start announcement. *)
Definition announcement (child : Z) : string :=
  "background pid is " +++ dec child +++ " " +++ nl.

(** The statement of C3 as the specification words it: for an effectively
    background command the parent makes a non-blocking wait on the child and
    prints the announcement with the child's pid. *)
Definition parent_announces_background : Prop :=
  forall (args : list string) (info : shell_info) (p : process) (child : Z)
         (fs : list Z),
    forks p = child :: fs ->
    0 < child ->
    run_in_background info p = true ->
    exists info' p' r,
      other_cmd args info p = Ret info' p'
      /\ In (EvWaitpid child WNOHANG r) (events_since p p')
      /\ In (EvPrintf (announcement child)) (events_since p p').

(** A kernel that grants every request. *)
Definition kernel_ok : kernel :=
  {| k_open_ok := fun _ _ => true; k_dup2_ok := fun _ _ => true;
     k_exec_ok := fun _ => true; k_chdir_ok := fun _ => true;
     k_home := Some "/root" |}.

Definition tty : open_file := {| of_path := "/dev/tty"; of_flags := 2 |}.

(** A shell process with its three standard descriptors on the terminal,
    whose next [fork] returns [fork_ret] and whose [waitpid] calls will get
    the answers [ws]. *)
Definition shell_process (stop : Z) (fork_ret : Z) (ws : list (Z * Z)) : process :=
  {| stop_background := stop; pid := 100;
     fds := [Some tty; Some tty; Some tty];
     sigint_action := ignore_action;
     sigtstp_action :=
       {| sa_handler := Handler_handle_SIG; sa_mask_full := true;
          sa_flags := SA_RESTART |};
     forks := [fork_ret]; waits := ws; kern := kernel_ok; trace := [] |}.

(** A parsed command: the flags and file names as [parse_line] leaves
    them. *)
Definition command (bg : Z) (out_flag in_flag : Z) (out_name in_name : string)
  : shell_info :=
  {| background := bg; exit_status := 0; output_redirect := out_flag;
     input_redirect := in_flag; output_filename := out_name;
     input_filename := in_name |}.

(** Running [c] only appends to the trace. *)
Definition grows {A : Type} (c : M A) : Prop :=
  forall p, exists l, trace (final (c p)) = trace p ++ l.

(** The disposition [custom_SIGTSTP] installs. *)
Definition handler_action : sigaction_t :=
  {| sa_handler := Handler_handle_SIG; sa_mask_full := true; sa_flags := SA_RESTART |}.

Definition title : string :=
  "small c-shell, enter shell commands like ls or echo " +++ nl.

(** A kernel that refuses every [dup2]. *)
Definition kernel_no_dup2 : kernel :=
  {| k_open_ok := fun _ _ => true; k_dup2_ok := fun _ _ => false;
     k_exec_ok := fun _ => true; k_chdir_ok := fun _ => true;
     k_home := Some "/root" |}.

(** The child of a shell, just forked, under that kernel. *)
Definition child_no_dup2 : process :=
  {| stop_background := 0; pid := 4242;
     fds := [Some tty; Some tty; Some tty];
     sigint_action := ignore_action; sigtstp_action := handler_action;
     forks := [0]; waits := []; kern := kernel_no_dup2; trace := [] |}.

(** A [shell_info] as the stack may hold it before any assignment. *)
Definition stack_with (status : Z) : shell_info :=
  {| background := 0; exit_status := status; output_redirect := 0;
     input_redirect := 0; output_filename := EmptyString;
     input_filename := EmptyString |}.

(** Running [c] never stops for lack of fuel. *)
Definition fuel_safe {A : Type} (c : M A) : Prop :=
  forall p q, c p <> Fault OutOfFuel q.

(** ** Vocabulary of the further properties *)

(** The loop of [parse_line] read as a function of the tokens that follow
    the command name: the same tests in the same order, the next token
    being the head of the list. *)
Fixpoint parse_tokens (pid : Z) (toks : list string) (info : shell_info)
  (args : list string) : fault + (shell_info * list string) :=
  match toks with
  | [] => inr (info, args)
  | t :: rest =>
      if String.eqb t "<" then
        match rest with
        | [] => inl NullDeref
        | name :: rest' =>
            if 256 <=? strlen name then inl BufferOverflow
            else parse_tokens pid rest'
                   (set_input_filename name (set_input_redirect 1 info)) args
        end
      else if String.eqb t ">" then
        match rest with
        | [] => inl NullDeref
        | name :: rest' =>
            if 256 <=? strlen name then inl BufferOverflow
            else parse_tokens pid rest'
                   (set_output_filename name (set_output_redirect 1 info)) args
        end
      else if String.eqb t "&" then
        parse_tokens pid rest (set_background 1 info) args
      else if String.eqb t "$$" then
        match store_arg args (dec pid) with
        | inl f => inl f
        | inr args => parse_tokens pid rest info args
        end
      else
        match store_arg args t with
        | inl f => inl f
        | inr args => parse_tokens pid rest info args
        end
  end.

(** Whether a token is [<] or [>]. *)
Definition is_redirect_operator (t : string) : bool :=
  String.eqb t "<" || String.eqb t ">".

(** The arguments a list of tokens contributes: the tokens other than the
    redirection operators, the file names that follow them and [&], with
    [$$] replaced by the decimal pid. *)
Fixpoint argument_tokens (pid : Z) (toks : list string) : list string :=
  match toks with
  | [] => []
  | t :: rest =>
      if is_redirect_operator t then
        match rest with
        | [] => []
        | _ :: rest' => argument_tokens pid rest'
        end
      else if String.eqb t "&" then argument_tokens pid rest
      else (if String.eqb t "$$" then dec pid else t) :: argument_tokens pid rest
  end.

(** The file name a list of tokens gives to the operator [op]: the token
    after its last occurrence in operator position, [cur] if there is
    none. *)
Fixpoint redirect_target (op : string) (toks : list string) (cur : option string)
  : option string :=
  match toks with
  | [] => cur
  | t :: rest =>
      if is_redirect_operator t then
        match rest with
        | [] => cur
        | name :: rest' =>
            redirect_target op rest' (if String.eqb t op then Some name else cur)
        end
      else redirect_target op rest cur
  end.

(** Whether a list of tokens ends with a redirection operator in operator
    position: a [<] or [>] that is not itself the file name of the operator
    before it, and after which the list ends. *)
Fixpoint dangling_operator (toks : list string) : bool :=
  match toks with
  | [] => false
  | t :: rest =>
      if is_redirect_operator t then
        match rest with
        | [] => true
        | _ :: rest' => dangling_operator rest'
        end
      else dangling_operator rest
  end.


(** Whether a byte occurs in a string. *)
Fixpoint contains_char (c : ascii) (s : string) : bool :=
  match s with
  | EmptyString => false
  | String x s' => Ascii.eqb x c || contains_char c s'
  end.

(** [c] does not return: it ends in [exit], in a new image or in a fault. *)
Definition never_returns {A : Type} (c : M A) : Prop :=
  forall p a p', c p <> Ret a p'.

(** What a run of a parsed command may end in: a return, an [exit] with
    status 0, 1 or 2, or the image of [file] started with [argv]. *)
Definition outcome_ok {A : Type} (file : string) (argv : list string)
  (o : outcome A) : Prop :=
  match o with
  | Ret _ _ => True
  | Exit code _ => code = 0 \/ code = 1 \/ code = 2
  | Exec f a _ => f = file /\ a = argv
  | Fault _ _ => False
  end.

Definition ends_well {A : Type} (file : string) (argv : list string) (c : M A)
  : Prop :=
  forall p, outcome_ok file argv (c p).

(** The part of a process that running a command must not change in the
    shell itself: the suspend flag, the pid, the descriptor table, the two
    signal dispositions and the kernel it talks to. *)
Definition environment (p : process)
  : Z * Z * list (option open_file) * sigaction_t * sigaction_t * kernel :=
  (stop_background p, pid p, fds p, sigint_action p, sigtstp_action p, kern p).

(** The part of it that no delivery of the suspend signal touches either:
    the pid, the descriptor table and the two signal dispositions. *)
Definition shell_resources (p : process)
  : Z * list (option open_file) * sigaction_t * sigaction_t :=
  (pid p, fds p, sigint_action p, sigtstp_action p).

Definition keeps_environment {A : Type} (c : M A) : Prop :=
  forall p a p', c p = Ret a p' -> environment p' = environment p.

(** The calls of one turn of the reaping loop that collects a child. *)
Definition reap_report (answer : Z * Z) : list event :=
  [EvWaitpid (-1) WNOHANG (fst answer);
   EvPrintf ("background pid " +++ dec (fst answer) +++ " is done: ");
   EvFflush;
   EvPrintf (status_text (snd answer));
   EvFflush].

(** The answer that ends the reaping loop: the first of those that remain,
    or -1 when the kernel has none left. *)
Definition closing_answer (rest : list (Z * Z)) : Z :=
  match rest with
  | [] => -1
  | a :: _ => fst a
  end.

(** What the child of a command has on its standard input when it calls
    [execvp]: the explicit input file, else the null device for a background
    command, else what the shell had. *)
Definition child_stdin (info : shell_info) (p : process) : option open_file :=
  if negb (input_redirect info =? 0)
  then Some {| of_path := input_filename info; of_flags := O_RDONLY |}
  else if run_in_background info p then Some null_in
  else get_fd (fds p) 0.

(** The same for its standard output. *)
Definition child_stdout (info : shell_info) (p : process) : option open_file :=
  if negb (output_redirect info =? 0)
  then Some {| of_path := output_filename info; of_flags := output_flags |}
  else if run_in_background info p then Some null_out
  else get_fd (fds p) 1.

(** [c] leaves the two signal dispositions as they are, however it ends. *)
Definition keeps_dispositions {A : Type} (c : M A) : Prop :=
  forall p,
    sigint_action (final (c p)) = sigint_action p
    /\ sigtstp_action (final (c p)) = sigtstp_action p.

(** The kernel lets every [open] and every [dup2] through. *)
Definition files_available (k : kernel) : Prop :=
  (forall path flags, k_open_ok k path flags = true)
  /\ (forall oldfd newfd, k_dup2_ok k oldfd newfd = true).

(** A state reached from [p] by redirections of descriptors 0 and 1 only:
    same kernel, both still open, the other descriptors as in [p]. *)
Definition redirected_from (p q : process) : Prop :=
  kern q = kern p
  /\ get_fd (fds q) 0 <> None
  /\ get_fd (fds q) 1 <> None
  /\ (forall x, x <> 0 -> x <> 1 -> get_fd (fds q) x = get_fd (fds p) x).

(** A way of ending that the kernel can report: an exit code of one byte, or
    a signal number between 1 and 127. *)
Definition reportable (t : termination) : Prop :=
  match t with
  | Exited code => 0 <= code < 256
  | Signaled sig _ => 0 < sig < 128
  end.

(** What the shell prints as soon as a foreground child has ended. *)
Definition foreground_report (t : termination) : list event :=
  match t with
  | Exited code =>
      if code =? 0 then []
      else [EvPrintf ("exit value " +++ dec code +++ " " +++ nl); EvFflush]
  | Signaled sig _ =>
      [EvPrintf ("terminated by signal " +++ dec sig +++ " " +++ nl); EvFflush]
  end.

(** The first token of a raw input line, the empty string when it has
    none. *)
Definition command_name (incoming : string) : string :=
  hd EmptyString (tokens (buffer_after_strtok nl_char incoming)).

(** A word: a string that is not empty and holds no space. *)
Definition is_word (s : string) : Prop :=
  s <> EmptyString /\ contains_char sp_char s = false.


(** * Properties *)

Unset Implicit Arguments.

(** ** Evaluation of the model on small inputs *)

Example dec_42 : dec 42 = "42".
Proof. reflexivity. Qed.

Example strtok_r_ls : strtok_r sp_char "  ls  -l" = Some ("ls", " -l").
Proof. reflexivity. Qed.

Example strtok_r_blank : strtok_r sp_char "   " = None.
Proof. reflexivity. Qed.

(** ** Traces *)

Lemma skipn_length_app (A : Type) (l l' : list A) :
  skipn (List.length l) (l ++ l') = l'.
Proof.
  induction l as [|x l IH]; simpl; [reflexivity | exact IH].
Qed.

Lemma events_since_app (p p' : process) (l : list event) :
  trace p' = trace p ++ l -> events_since p p' = l.
Proof.
  intros H. unfold events_since. rewrite H. apply skipn_length_app.
Qed.

(** Bring a trace to the form [trace p ++ l]. *)
Ltac trace_norm :=
  cbn [trace log with_stop_background with_fds with_sigint with_sigtstp
       with_forks with_waits];
  repeat rewrite <- app_assoc; cbn [app].

Ltac since := apply events_since_app; trace_norm; reflexivity.

(** ** Running monadic code *)

Lemma run_bind (A B : Type) (c : M A) (k : A -> M B) (p : process) :
  bind c k p =
    match c p with
    | Ret a p' => k a p'
    | Exit code p' => Exit code p'
    | Exec file argv p' => Exec file argv p'
    | Fault f p' => Fault f p'
    end.
Proof. reflexivity. Qed.

(** Unfold the monad and the library calls, leaving the tests on the state
    and on the kernel's answers in place. *)
Ltac run :=
  cbv beta iota zeta
      delta [bind ret Monad_M m_bind m_ret printf fflush_stdout perror write
             Sys.exit getpid getenv_HOME chdir fork waitpid Sys.open dup2
             close sigaction execvp raise lift fst snd].

(** Reduce the projections of an updated process. *)
Ltac proj :=
  cbn [stop_background pid fds sigint_action sigtstp_action forks waits kern
       trace log with_stop_background with_fds with_sigint with_sigtstp
       with_forks with_waits].

(** ** The suspend-signal handler *)

Lemma handle_SIG_off (signo : Z) (p : process) :
  stop_background p = 0 ->
  handle_SIG signo p =
    Ret tt (with_stop_background 1
              (log EvFflush (log (EvWrite 1 (enter_message +++ " " +++ nl)) p))).
Proof.
  intros H. unfold handle_SIG. rewrite H. reflexivity.
Qed.

Lemma handle_SIG_on (signo : Z) (p : process) :
  stop_background p <> 0 ->
  handle_SIG signo p =
    Ret tt (with_stop_background 0
              (log EvFflush (log (EvWrite 1 (exit_message +++ " " +++ nl)) p))).
Proof.
  intros H. unfold handle_SIG.
  destruct (Z.eqb_spec (stop_background p) 0) as [E|E]; [contradiction | reflexivity].
Qed.

(** The handler always returns, and never leaves the process. *)
Lemma handle_SIG_returns (signo : Z) (p : process) :
  handle_SIG signo p = Ret tt (final (handle_SIG signo p)).
Proof.
  destruct (Z.eq_dec (stop_background p) 0) as [E|E].
  - rewrite handle_SIG_off by exact E. reflexivity.
  - rewrite handle_SIG_on by exact E. reflexivity.
Qed.

(** C2.  One delivery of the suspend signal while [stop_background] is 0
    sets it to 1 and writes the enter-mode message (followed by a space and a
    newline) to standard output; a delivery while it is not 0 sets it to 0
    and writes the exit-mode message.  The flag the handler leaves is 0 or 1,
    a delivery negates foreground-only mode, and two deliveries restore it
    (and restore the value of the flag itself when that was 0 or 1, as every
    value the program stores is). *)
Theorem handle_SIG_two_state_flip (signo : Z) (p : process) :
  let p1 := final (handle_SIG signo p) in
  let p2 := final (handle_SIG signo p1) in
  handle_SIG signo p = Ret tt p1
  /\ (stop_background p = 0 ->
      stop_background p1 = 1
      /\ events_since p p1 = [EvWrite STDOUT_FILENO (enter_message +++ " " +++ nl); EvFflush])
  /\ (stop_background p <> 0 ->
      stop_background p1 = 0
      /\ events_since p p1 = [EvWrite STDOUT_FILENO (exit_message +++ " " +++ nl); EvFflush])
  /\ (stop_background p1 = 0 \/ stop_background p1 = 1)
  /\ foreground_only p1 = negb (foreground_only p)
  /\ foreground_only p2 = foreground_only p
  /\ (stop_background p = 0 \/ stop_background p = 1 ->
      stop_background p2 = stop_background p).
Proof.
  intros p1 p2. subst p2 p1.
  split; [apply handle_SIG_returns|].
  unfold foreground_only.
  destruct (Z.eq_dec (stop_background p) 0) as [E|E].
  - rewrite (handle_SIG_off signo p E). cbn [final].
    rewrite handle_SIG_on by (cbn; lia). cbn [final].
    rewrite E. cbn [stop_background with_stop_background].
    repeat split; try since; try lia; auto.
  - rewrite (handle_SIG_on signo p E). cbn [final].
    rewrite handle_SIG_off by reflexivity. cbn [final].
    cbn [stop_background with_stop_background].
    destruct (Z.eqb_spec (stop_background p) 0) as [E'|E']; [contradiction|].
    repeat split; try since; try lia; auto.
Qed.

(** The handler on a session that has just started, delivered twice. *)
Lemma handle_SIG_two_state_flip_witness :
  let p0 := {| stop_background := 0; pid := 100; fds := [];
               sigint_action := sigaction_zero; sigtstp_action := sigaction_zero;
               forks := []; waits := [];
               kern := {| k_open_ok := fun _ _ => true; k_dup2_ok := fun _ _ => true;
                          k_exec_ok := fun _ => true; k_chdir_ok := fun _ => true;
                          k_home := None |};
               trace := [] |} in
  stop_background (final (handle_SIG SIGTSTP p0)) = 1
  /\ stop_background (final (handle_SIG SIGTSTP (final (handle_SIG SIGTSTP p0)))) = 0.
Proof.
  intros p0.
  destruct (handle_SIG_two_state_flip SIGTSTP p0) as (_ & H0 & _ & _ & _ & _ & H2).
  split.
  - apply H0. reflexivity.
  - apply H2. left. reflexivity.
Defined.

(** ** The tokenizer *)

Lemma skip_delims_length (d : ascii) (s : string) :
  (String.length (skip_delims d s) <= String.length s)%nat.
Proof.
  induction s as [|c s IH]; simpl; [lia|].
  destruct (Ascii.eqb c d); simpl; lia.
Qed.

Lemma break_at_length (d : ascii) (s tok rest : string) :
  break_at d s = (tok, Some rest) -> (String.length rest < String.length s)%nat.
Proof.
  revert tok. induction s as [|c s IH]; simpl; intros tok H; [discriminate|].
  destruct (Ascii.eqb c d).
  - inversion H; subst. lia.
  - destruct (break_at d s) as [t r] eqn:E. inversion H; subst.
    specialize (IH t eq_refl). lia.
Qed.

(** Each successful [strtok_r] leaves strictly less to scan. *)
Lemma strtok_r_shorter (d : ascii) (s tok rest : string) :
  strtok_r d s = Some (tok, rest) -> (String.length rest < String.length s)%nat.
Proof.
  unfold strtok_r. intros H.
  pose proof (skip_delims_length d s) as L.
  destruct (skip_delims d s) as [|c s'] eqn:E; [discriminate|].
  destruct (break_at d (String c s')) as [t r] eqn:B.
  inversion H; subst. destruct r as [r|].
  - apply break_at_length in B. lia.
  - simpl in *. lia.
Qed.

Lemma words_skip_delims (d : ascii) (s : string) :
  words d EmptyString (skip_delims d s) = words d EmptyString s.
Proof.
  induction s as [|c s IH]; simpl; [reflexivity|].
  destruct (Ascii.eqb c d) eqn:E; [exact IH|].
  simpl. rewrite E. reflexivity.
Qed.

Lemma append_assoc (a b c : string) : (a +++ b) +++ c = a +++ (b +++ c).
Proof.
  induction a as [|x a IH]; simpl; [reflexivity | now rewrite IH].
Qed.

Lemma append_empty_r (a : string) : a +++ EmptyString = a.
Proof.
  induction a as [|x a IH]; simpl; [reflexivity | now rewrite IH].
Qed.

Lemma append_nonempty (a : string) (c : ascii) :
  a +++ String c EmptyString <> EmptyString.
Proof. destruct a; discriminate. Qed.

Lemma words_break_at (d : ascii) (s cur : string) :
  cur <> EmptyString ->
  words d cur s =
    (cur +++ fst (break_at d s))
      :: match snd (break_at d s) with
         | Some r => words d EmptyString r
         | None => []
         end.
Proof.
  revert cur. induction s as [|c s IH]; intros cur Hcur; simpl.
  - rewrite append_empty_r. destruct cur; [contradiction | reflexivity].
  - destruct (Ascii.eqb c d) eqn:E.
    + rewrite append_empty_r. destruct cur; [contradiction | reflexivity].
    + rewrite IH by apply append_nonempty.
      destruct (break_at d s) as [t r]. simpl. rewrite append_assoc. reflexivity.
Qed.

(** [strtok_r] hands out the words of the string one at a time. *)
Lemma words_strtok_r (d : ascii) (s : string) :
  words d EmptyString s =
    match strtok_r d s with
    | None => []
    | Some (tok, rest) => tok :: words d EmptyString rest
    end.
Proof.
  rewrite <- words_skip_delims. unfold strtok_r.
  destruct (skip_delims d s) as [|c s'] eqn:E; [reflexivity|].
  assert (Hc : Ascii.eqb c d = false).
  { clear -E. induction s as [|x s IH]; simpl in E; [discriminate|].
    destruct (Ascii.eqb x d) eqn:X; [auto|]. inversion E; subst. exact X. }
  cbn [words]. rewrite Hc. rewrite words_break_at by discriminate.
  cbn [break_at]. rewrite Hc.
  destruct (break_at d s') as [t r]. cbn.
  destruct r; reflexivity.
Qed.

Lemma strtok_r_spaces (n : nat) : strtok_r sp_char (spaces n) = None.
Proof.
  unfold strtok_r.
  assert (H : skip_delims sp_char (spaces n) = EmptyString).
  { induction n; simpl; [reflexivity | exact IHn]. }
  rewrite H. reflexivity.
Qed.

Lemma buffer_after_strtok_spaces (n : nat) :
  buffer_after_strtok nl_char (spaces (S n) +++ nl) = spaces (S n).
Proof.
  cbn [spaces append buffer_after_strtok]. 
  change (Ascii.eqb sp_char nl_char) with false. cbn iota.
  cbn [break_at]. change (Ascii.eqb sp_char nl_char) with false. cbn iota.
  assert (H : break_at nl_char (spaces n +++ nl) = (spaces n, Some EmptyString)).
  { induction n; [reflexivity|].
    cbn [spaces append break_at].
    change (Ascii.eqb sp_char nl_char) with false. cbn iota.
    rewrite IHn. reflexivity. }
  rewrite H. reflexivity.
Qed.

(** ** The parser *)

Lemma store_arg_nil (token : string) : store_arg [] token = inr [token].
Proof. reflexivity. Qed.

(** The parser always comes to an end: the fuel [parse_line] provides is
    never used up. *)
Lemma parse_rest_total (fuel : nat) (pid : Z) (saveptr : string)
  (info : shell_info) (args : list string) :
  (String.length saveptr < fuel)%nat ->
  parse_rest fuel pid saveptr info args <> inl OutOfFuel.
Proof.
  revert saveptr info args.
  induction fuel as [|fuel IH]; intros s info args L; [lia|].
  cbn [parse_rest].
  destruct (strtok_r sp_char s) as [[token s1]|] eqn:T; [|discriminate].
  apply strtok_r_shorter in T.
  destruct (String.eqb token "<");
    [|destruct (String.eqb token ">");
      [|destruct (String.eqb token "&");
        [|destruct (String.eqb token "$$")]]].
  1,2: destruct (strtok_r sp_char s1) as [[t s2]|] eqn:T2; cbn;
       [ destruct (256 <=? strlen t); [discriminate|];
         apply strtok_r_shorter in T2; apply IH; lia
       | discriminate ].
  - apply IH; lia.
  - unfold store_arg. destruct (512 <=? _); [discriminate|]. apply IH; lia.
  - unfold store_arg. destruct (512 <=? _); [discriminate|]. apply IH; lia.
Qed.

Lemma parse_line_total (pid : Z) (line : string) (info : shell_info) :
  parse_line pid line info <> inl OutOfFuel.
Proof.
  unfold parse_line.
  destruct (strtok_r sp_char line) as [[token s1]|] eqn:T; [|discriminate].
  apply strtok_r_shorter in T. rewrite store_arg_nil.
  apply parse_rest_total. lia.
Qed.

(** The parser does not touch [exit_status]. *)
Lemma parse_rest_exit_status (fuel : nat) (pid : Z) (saveptr : string)
  (info info' : shell_info) (args args' : list string) :
  parse_rest fuel pid saveptr info args = inr (info', args') ->
  exit_status info' = exit_status info.
Proof.
  revert saveptr info args.
  induction fuel as [|fuel IH]; intros s info args H; [discriminate|].
  cbn [parse_rest] in H.
  destruct (strtok_r sp_char s) as [[token s1]|] eqn:T;
    [|inversion H; reflexivity].
  destruct (String.eqb token "<");
    [|destruct (String.eqb token ">");
      [|destruct (String.eqb token "&");
        [|destruct (String.eqb token "$$")]]].
  1,2: destruct (strcpy_filename _); [discriminate|];
       apply IH in H; exact H.
  - apply IH in H. exact H.
  - destruct (store_arg args (dec pid)); [discriminate|]. apply IH in H. exact H.
  - destruct (store_arg args token); [discriminate|]. apply IH in H. exact H.
Qed.

Lemma parse_line_exit_status (pid : Z) (line : string)
  (info info' : shell_info) (args' : list string) :
  parse_line pid line info = inr (info', args') ->
  exit_status info' = exit_status info.
Proof.
  unfold parse_line.
  destruct (strtok_r sp_char line) as [[token s1]|]; [|discriminate].
  rewrite store_arg_nil.
  apply parse_rest_exit_status.
Qed.

(** What the loop does to the background flag: it is set to 1 when the
    remaining tokens hold an [&] in argument position, and kept otherwise. *)
Lemma parse_rest_background (fuel : nat) (pid : Z) (saveptr : string)
  (info info' : shell_info) (args args' : list string) :
  parse_rest fuel pid saveptr info args = inr (info', args') ->
  background info' =
    if amp_argument (tokens saveptr) then 1 else background info.
Proof.
  unfold tokens. revert saveptr info args.
  induction fuel as [|fuel IH]; intros s info args H; [discriminate|].
  cbn [parse_rest] in H. rewrite (words_strtok_r sp_char s).
  destruct (strtok_r sp_char s) as [[token s1]|] eqn:T;
    [|inversion H; reflexivity].
  cbn [amp_argument].
  destruct (String.eqb token "<") eqn:E1;
    [|destruct (String.eqb token ">") eqn:E2;
      [|destruct (String.eqb token "&") eqn:E3;
        [|destruct (String.eqb token "$$") eqn:E4]]]; cbn [orb].
  1,2: rewrite (words_strtok_r sp_char s1);
       destruct (strtok_r sp_char s1) as [[t s2]|]; cbn in H;
       [ destruct (256 <=? strlen t); [discriminate|];
         apply IH in H; exact H
       | discriminate ].
  - apply IH in H. rewrite H. cbn.
    destruct (amp_argument _); reflexivity.
  - destruct (store_arg args (dec pid)); [discriminate|]. apply IH in H. exact H.
  - destruct (store_arg args token); [discriminate|]. apply IH in H. exact H.
Qed.

Lemma tokens_tail (line token saveptr : string) :
  strtok_r sp_char line = Some (token, saveptr) ->
  tokens line = token :: tokens saveptr.
Proof.
  intros H. unfold tokens. rewrite (words_strtok_r sp_char line), H. reflexivity.
Qed.

(** C7, counterexample.  On the line [echo & hi] the parser sets the
    background flag although the last token is [hi]; the statement "set
    exactly when the trailing token is [&]" is false. *)
Lemma background_iff_trailing_amp_fails : ~ background_iff_trailing_amp.
Proof.
  intros H.
  pose (info0 := {| background := 0; exit_status := 0; output_redirect := 0;
                    input_redirect := 0; output_filename := EmptyString;
                    input_filename := EmptyString |}).
  specialize (H 100 "echo & hi" info0
                (set_background 1 (init_shell_info info0)) ["echo"; "hi"] eq_refl).
  destruct H as [H _].
  assert (F : last (tokens "echo & hi") EmptyString = "&")
    by (apply H; cbn; discriminate).
  vm_compute in F. discriminate.
Qed.

(** C7, amended.  After a successful parse of a line read into a freshly
    reset [shell_info], the background flag is 1 exactly when some token
    after the first is an [&] in argument position, wherever it stands in the
    line; it is 0 otherwise.  In particular an [&] that is the first token,
    or that is taken as the file name of a [<] or [>], does not set it. *)
Theorem parse_line_background (pid : Z) (line : string)
  (info info' : shell_info) (args : list string) :
  parse_line pid line (init_shell_info info) = inr (info', args) ->
  background info' = if amp_argument (tl (tokens line)) then 1 else 0.
Proof.
  unfold parse_line. intros H.
  destruct (strtok_r sp_char line) as [[token s1]|] eqn:T; [|discriminate].
  rewrite (tokens_tail line token s1 T). cbn [tl].
  rewrite store_arg_nil in H.
  apply parse_rest_background in H. exact H.
Qed.

(** The amended C7 on the line [echo & hi], read into a reset record. *)
Lemma parse_line_background_witness :
  let info0 := {| background := 7; exit_status := 3; output_redirect := 1;
                  input_redirect := 1; output_filename := "a";
                  input_filename := "b" |} in
  parse_line 100 "echo & hi" (init_shell_info info0)
    = inr (set_background 1 (init_shell_info info0), ["echo"; "hi"])
  /\ background (set_background 1 (init_shell_info info0)) = 1.
Proof.
  intros info0. split; [reflexivity|].
  exact (parse_line_background 100 "echo & hi" info0
           (set_background 1 (init_shell_info info0)) ["echo"; "hi"] eq_refl).
Defined.

Example parse_line_redirections :
  parse_line 100 "sort < in.txt > out.txt $$ &" (command 0 0 0 EmptyString EmptyString)
    = inr (command 1 1 1 "out.txt" "in.txt", ["sort"; "100"]).
Proof. reflexivity. Qed.

Example parse_line_amp_first :
  parse_line 100 "&" (command 0 0 0 EmptyString EmptyString)
    = inr (command 0 0 0 EmptyString EmptyString, ["&"]).
Proof. reflexivity. Qed.

Example parse_line_amp_file_name :
  parse_line 100 "cat < &" (command 0 0 0 EmptyString EmptyString)
    = inr (command 0 0 1 EmptyString "&", ["cat"]).
Proof. reflexivity. Qed.

Example parse_line_missing_file_name :
  parse_line 100 "cat <" (command 0 0 0 EmptyString EmptyString) = inl NullDeref.
Proof. reflexivity. Qed.

Lemma get_input_line (buf : string) (p : process) :
  get_input (Some buf) p =
    Ret (buffer_after_strtok nl_char buf) (log EvFflush (log (EvPrintf ": ") p)).
Proof. reflexivity. Qed.

Lemma parse_line_spaces (n : nat) (pid : Z) (info : shell_info) :
  parse_line pid (spaces n) info = inl NullDeref.
Proof.
  unfold parse_line. rewrite strtok_r_spaces. reflexivity.
Qed.

(** C10.  A line made of one or more spaces is delivered unchanged by
    [get_input] once its newline is cut; on it the first [strtok_r] of
    [parse_line] returns NULL, [parse_line] dereferences it, and the shell
    loop ends in that fault instead of reading the next line. *)
Theorem parse_line_not_total (n : nat) (pid : Z) (info : shell_info)
  (p : process) (rest : list string) :
  let line := spaces (S n) in
  line <> EmptyString
  /\ get_input (Some (line +++ nl)) p
       = Ret line (log EvFflush (log (EvPrintf ": ") p))
  /\ strtok_r sp_char line = None
  /\ parse_line pid line info = inl NullDeref
  /\ shell_loop ((line +++ nl) :: rest) info p
       = Fault NullDeref (log EvFflush (log (EvPrintf ": ") p)).
Proof.
  intros line. subst line.
  split; [discriminate|].
  split; [rewrite get_input_line, buffer_after_strtok_spaces; reflexivity|].
  split; [apply strtok_r_spaces|].
  split; [apply parse_line_spaces|].
  cbn [shell_loop]. rewrite run_bind.
  rewrite get_input_line, buffer_after_strtok_spaces.
  run. rewrite parse_line_spaces. reflexivity.
Qed.

(** ** The per-iteration reset *)

(** One turn of the loop up to the call of [execute_cmd]. *)
Lemma shell_loop_turn (incoming : string) (rest : list string)
  (info : shell_info) (p : process) :
  shell_loop (incoming :: rest) info p =
    match parse_line (pid p) (buffer_after_strtok nl_char incoming)
                     (init_shell_info info) with
    | inl f => Fault f (log EvFflush (log (EvPrintf ": ") p))
    | inr (info1, args) =>
        (r <- execute_cmd args info1 ;;
         if negb (fst r =? 0) then shell_loop rest (snd r) else ret tt)
          (log EvFflush (log (EvPrintf ": ") p))
    end.
Proof.
  cbn [shell_loop]. rewrite run_bind, get_input_line.
  rewrite run_bind. cbv beta iota delta [getpid].
  rewrite run_bind.
  change (pid (log EvFflush (log (EvPrintf ": ") p))) with (pid p).
  destruct (parse_line (pid p) (buffer_after_strtok nl_char incoming)
                       (init_shell_info info)) as [f|[info1 args]];
    reflexivity.
Qed.

(** C9.  [init_shell_info] sets the background flag and both redirection
    flags to 0 and both file names to the empty string, and leaves
    [exit_status] as it was; it has no access to [stop_background].  In every
    turn of the loop, [execute_cmd] therefore runs with the [exit_status] and
    the [stop_background] the previous turn ended with. *)
Theorem init_shell_info_keeps_session_state (info : shell_info)
  (incoming : string) (rest : list string) (p : process) :
  let info0 := init_shell_info info in
  let p1 := log EvFflush (log (EvPrintf ": ") p) in
  background info0 = 0
  /\ input_redirect info0 = 0
  /\ output_redirect info0 = 0
  /\ input_filename info0 = EmptyString
  /\ output_filename info0 = EmptyString
  /\ exit_status info0 = exit_status info
  /\ stop_background p1 = stop_background p
  /\ match parse_line (pid p) (buffer_after_strtok nl_char incoming) info0 with
     | inl f => shell_loop (incoming :: rest) info p = Fault f p1
     | inr (info1, args) =>
         exit_status info1 = exit_status info
         /\ shell_loop (incoming :: rest) info p =
              (r <- execute_cmd args info1 ;;
               if negb (fst r =? 0) then shell_loop rest (snd r) else ret tt) p1
     end.
Proof.
  intros info0 p1. subst info0 p1.
  do 7 (split; [reflexivity|]).
  rewrite shell_loop_turn.
  destruct (parse_line (pid p) (buffer_after_strtok nl_char incoming)
                       (init_shell_info info)) as [f|[info1 args]] eqn:P;
    [reflexivity|].
  split; [|reflexivity].
  apply parse_line_exit_status in P. exact P.
Qed.

(** ** Decoding a wait status *)

Lemma Z_range_forallb (P : Z -> bool) (n : nat) :
  forallb P (map Z.of_nat (seq 0 n)) = true ->
  forall z, 0 <= z < Z.of_nat n -> P z = true.
Proof.
  intros H z Hz. rewrite forallb_forall in H. apply H.
  apply in_map_iff. exists (Z.to_nat z). split; [lia|].
  apply in_seq. lia.
Qed.

(** A child that called [exit(code)] is seen as exited, with that code. *)
Lemma wait_status_exited (code : Z) :
  0 <= code < 256 ->
  WIFEXITED (wait_status (Exited code)) = true
  /\ WEXITSTATUS (wait_status (Exited code)) = code.
Proof.
  intros H.
  pose proof (Z_range_forallb
    (fun c => WIFEXITED (wait_status (Exited c))
              && (WEXITSTATUS (wait_status (Exited c)) =? c)) 256 eq_refl code H) as E.
  apply andb_true_iff in E. destruct E as [E1 E2].
  split; [exact E1 | apply Z.eqb_eq; exact E2].
Qed.

(** A child killed by a signal is not seen as exited, and the signal is read
    back, with or without a core dump. *)
Lemma wait_status_signaled (sig : Z) (core : bool) :
  0 < sig < 128 ->
  WIFEXITED (wait_status (Signaled sig core)) = false
  /\ WTERMSIG (wait_status (Signaled sig core)) = sig.
Proof.
  intros H.
  assert (R : 0 <= sig < Z.of_nat 128) by lia.
  pose proof (Z_range_forallb
    (fun s => (s =? 0)
              || (negb (WIFEXITED (wait_status (Signaled s true)))
                  && (WTERMSIG (wait_status (Signaled s true)) =? s)
                  && negb (WIFEXITED (wait_status (Signaled s false)))
                  && (WTERMSIG (wait_status (Signaled s false)) =? s)))
    128 eq_refl sig R) as E.
  cbv beta in E. apply orb_true_iff in E. destruct E as [E|E]; [lia|].
  repeat (apply andb_true_iff in E; destruct E as [E ?]).
  destruct core; split;
    try (apply Z.eqb_eq; assumption);
    try (apply negb_true_iff; assumption).
Qed.

Lemma my_status_run (status : Z) (p : process) :
  my_status status p = Ret tt (log EvFflush (log (EvPrintf (status_text status)) p)).
Proof.
  unfold my_status, status_text. destruct (WIFEXITED status); reflexivity.
Qed.

(** ** The descriptor table *)

Lemma nth_set_fd_same (n : nat) (v : option open_file) (t : list (option open_file)) :
  nth n (set_fd n v t) None = v.
Proof.
  revert t. induction n as [|n IH]; intros [|x t]; simpl; auto.
Qed.

Lemma nth_set_fd_other (n m : nat) (v : option open_file) (t : list (option open_file)) :
  m <> n -> nth m (set_fd n v t) None = nth m t None.
Proof.
  revert m t. induction n as [|n IH]; intros [|m] [|x t] H; simpl; auto;
    try contradiction.
  - destruct m; reflexivity.
  - rewrite IH by auto. destruct m; reflexivity.
Qed.

Lemma get_fd_of_nat (t : list (option open_file)) (n : nat) :
  get_fd t (Z.of_nat n) = nth n t None.
Proof.
  unfold get_fd. destruct (Z.ltb_spec (Z.of_nat n) 0); [lia|].
  rewrite Nat2Z.id. reflexivity.
Qed.

Lemma get_fd_set_fd_same (n : nat) (v : option open_file) (t : list (option open_file)) :
  get_fd (set_fd n v t) (Z.of_nat n) = v.
Proof. rewrite get_fd_of_nat. apply nth_set_fd_same. Qed.

Lemma get_fd_set_fd_other (n : nat) (fd : Z) (v : option open_file)
  (t : list (option open_file)) :
  fd <> Z.of_nat n -> get_fd (set_fd n v t) fd = get_fd t fd.
Proof.
  intros H. unfold get_fd. destruct (Z.ltb_spec fd 0); [reflexivity|].
  apply nth_set_fd_other. lia.
Qed.

(** [open] hands out a descriptor that is not in use. *)
Lemma lowest_free_unused (t : list (option open_file)) :
  get_fd t (Z.of_nat (lowest_free t)) = None.
Proof.
  rewrite get_fd_of_nat.
  induction t as [|[f|] t IH]; simpl; auto.
Qed.

Lemma lowest_free_not_open (t : list (option open_file)) (fd : Z) :
  get_fd t fd <> None -> Z.of_nat (lowest_free t) <> fd.
Proof.
  intros H E. apply H. rewrite <- E. apply lowest_free_unused.
Qed.

(** Opening and closing a descriptor leaves the table as it was. *)
Lemma get_fd_open_close (t : list (option open_file)) (f : open_file) (fd : Z) :
  get_fd (set_fd (lowest_free t) None (set_fd (lowest_free t) (Some f) t)) fd
    = get_fd t fd.
Proof.
  destruct (Z.eq_dec fd (Z.of_nat (lowest_free t))) as [E|E].
  - subst fd. rewrite get_fd_set_fd_same, lowest_free_unused. reflexivity.
  - rewrite !get_fd_set_fd_other by exact E. reflexivity.
Qed.



(** ** The redirection unit *)

Lemma of_nat_not_minus_one (n : nat) : (Z.of_nat n =? -1) = false.
Proof. apply Z.eqb_neq. lia. Qed.

Lemma output_redirection_open_fails (filename : string) (p : process) :
  k_open_ok (kern p) filename output_flags = false ->
  output_redirection filename p =
    Exit 1 (log (EvExit 1)
              (log (EvPerror ("Output file could not be opened " +++ nl))
                 (log (EvOpen filename output_flags 511 (-1)) p))).
Proof.
  intros H. unfold output_redirection. run.
  change (Z.lor (Z.lor O_WRONLY O_CREAT) O_TRUNC) with output_flags.
  rewrite H. reflexivity.
Qed.

Lemma input_redirection_open_fails (filename : string) (p : process) :
  k_open_ok (kern p) filename O_RDONLY = false ->
  input_redirection filename p =
    Exit 1 (log (EvExit 1)
              (log (EvPerror ("Input file could not be opened " +++ nl))
                 (log (EvOpen filename O_RDONLY 0 (-1)) p))).
Proof.
  intros H. unfold input_redirection. run. rewrite H. reflexivity.
Qed.

Lemma output_redirection_dup2_fails (filename : string) (p : process) :
  k_open_ok (kern p) filename output_flags = true ->
  k_dup2_ok (kern p) (Z.of_nat (lowest_free (fds p))) 1 = false ->
  output_redirection filename p =
    Exit 1 (log (EvExit 1)
              (log (EvPerror "Output file could not be redirected")
                 (log (EvDup2 (Z.of_nat (lowest_free (fds p))) 1 (-1))
                    (opened filename output_flags 511 p)))).
Proof.
  intros H D. unfold output_redirection. run.
  change (Z.lor (Z.lor O_WRONLY O_CREAT) O_TRUNC) with output_flags.
  rewrite H, of_nat_not_minus_one. proj.
  rewrite get_fd_set_fd_same, D. reflexivity.
Qed.

Lemma input_redirection_dup2_fails (filename : string) (p : process) :
  k_open_ok (kern p) filename O_RDONLY = true ->
  k_dup2_ok (kern p) (Z.of_nat (lowest_free (fds p))) 0 = false ->
  input_redirection filename p =
    Exit 0 (log (EvExit 0)
              (log (EvPerror "Input file could not be redirected")
                 (log (EvDup2 (Z.of_nat (lowest_free (fds p))) 0 (-1))
                    (opened filename O_RDONLY 0 p)))).
Proof.
  intros H D. unfold input_redirection. run.
  rewrite H, of_nat_not_minus_one. proj.
  rewrite get_fd_set_fd_same, D. reflexivity.
Qed.

Lemma output_redirection_ok (filename : string) (p : process) :
  k_open_ok (kern p) filename output_flags = true ->
  k_dup2_ok (kern p) (Z.of_nat (lowest_free (fds p))) 1 = true ->
  get_fd (fds p) 1 <> None ->
  output_redirection filename p = Ret tt (redirected filename output_flags 511 1 p).
Proof.
  intros H D O. unfold output_redirection. run.
  change (Z.lor (Z.lor O_WRONLY O_CREAT) O_TRUNC) with output_flags.
  rewrite H, of_nat_not_minus_one. proj.
  rewrite get_fd_set_fd_same, D. cbn [Z.leb Z.compare andb Z.eqb]. proj.
  rewrite get_fd_set_fd_other by (apply lowest_free_not_open in O; lia).
  rewrite get_fd_set_fd_same, Nat2Z.id. reflexivity.
Qed.

Lemma input_redirection_ok (filename : string) (p : process) :
  k_open_ok (kern p) filename O_RDONLY = true ->
  k_dup2_ok (kern p) (Z.of_nat (lowest_free (fds p))) 0 = true ->
  get_fd (fds p) 0 <> None ->
  input_redirection filename p = Ret tt (redirected filename O_RDONLY 0 0 p).
Proof.
  intros H D O. unfold input_redirection. run.
  rewrite H, of_nat_not_minus_one. proj.
  rewrite get_fd_set_fd_same, D. cbn [Z.leb Z.compare andb Z.eqb]. proj.
  rewrite get_fd_set_fd_other by (apply lowest_free_not_open in O; lia).
  rewrite get_fd_set_fd_same, Nat2Z.id. reflexivity.
Qed.

(** What a successful redirection leaves in the descriptor table: the
    target is bound to the file, every other descriptor is as before. *)
Lemma redirected_fds (filename : string) (flags mode : Z) (target : nat)
  (p : process) (fd : Z) :
  get_fd (fds p) (Z.of_nat target) <> None ->
  get_fd (fds (redirected filename flags mode (Z.of_nat target) p)) fd =
    if fd =? Z.of_nat target
    then Some {| of_path := filename; of_flags := flags |}
    else get_fd (fds p) fd.
Proof.
  intros O. unfold redirected, opened. proj. rewrite Nat2Z.id.
  pose proof (lowest_free_not_open (fds p) (Z.of_nat target) O) as N.
  destruct (Z.eqb_spec fd (Z.of_nat target)) as [E|E].
  - subst fd. rewrite get_fd_set_fd_other by lia. apply get_fd_set_fd_same.
  - destruct (Z.eq_dec fd (Z.of_nat (lowest_free (fds p)))) as [F|F].
    + subst fd. rewrite get_fd_set_fd_same, lowest_free_unused. reflexivity.
    + rewrite !get_fd_set_fd_other by lia. reflexivity.
Qed.



(** ** Code that prints no background announcement *)

Lemma announced_app (l1 l2 : list event) :
  announced (l1 ++ l2) = announced l1 || announced l2.
Proof. apply existsb_app. Qed.

Lemma silent_at_bind (A B : Type) (c : M A) (k : A -> M B) (p : process) :
  silent_at c p ->
  (forall a p', c p = Ret a p' -> silent_at (k a) p') ->
  silent_at (bind c k) p.
Proof.
  intros (l1 & T1 & A1) K. unfold silent_at. rewrite run_bind.
  destruct (c p) as [a p'|code p'|file argv p'|f p'] eqn:E; cbn [final] in *;
    try (exists l1; split; assumption).
  destruct (K a p' eq_refl) as (l2 & T2 & A2).
  exists (l1 ++ l2). split.
  - rewrite T2, T1, app_assoc. reflexivity.
  - rewrite announced_app, A1, A2. reflexivity.
Qed.

Lemma silent_bind (A B : Type) (c : M A) (k : A -> M B) :
  silent c -> (forall a, silent (k a)) -> silent (bind c k).
Proof.
  intros C K p. apply silent_at_bind; [apply C | intros a p' _; apply K].
Qed.

Lemma silent_if (A : Type) (b : bool) (c1 c2 : M A) :
  silent c1 -> silent c2 -> silent (if b then c1 else c2).
Proof. destruct b; auto. Qed.

Lemma silent_ret (A : Type) (a : A) : silent (ret a).
Proof. intros p. exists []. rewrite app_nil_r. split; reflexivity. Qed.

(** A step that logs one call which is not an announcement. *)
Ltac one_event :=
  intros p; eexists [_]; split; [reflexivity | reflexivity].

Lemma silent_perror (text : string) : silent (perror text).
Proof. one_event. Qed.

Lemma silent_fflush : silent fflush_stdout.
Proof. one_event. Qed.

Lemma silent_exit (A : Type) (code : Z) : silent (@Sys.exit A code).
Proof. one_event. Qed.

Lemma silent_close (fd : Z) : silent (close fd).
Proof.
  intros p. unfold silent_at, close. destruct (get_fd (fds p) fd);
    eexists [_]; split; reflexivity.
Qed.

Lemma silent_open (path : string) (flags mode : Z) : silent (Sys.open path flags mode).
Proof.
  intros p. unfold silent_at, Sys.open. destruct (k_open_ok (kern p) path flags);
    eexists [_]; split; reflexivity.
Qed.

Lemma silent_dup2 (oldfd newfd : Z) : silent (dup2 oldfd newfd).
Proof.
  intros p. unfold silent_at, dup2. destruct (get_fd (fds p) oldfd);
    [destruct ((0 <=? newfd) && k_dup2_ok (kern p) oldfd newfd)|];
    eexists [_]; split; reflexivity.
Qed.

Lemma silent_sigaction (signo : Z) (act : sigaction_t) : silent (sigaction signo act).
Proof.
  intros p. unfold silent_at, sigaction.
  destruct (signo =? SIGINT); [|destruct (signo =? SIGTSTP)];
    eexists [_]; split; reflexivity.
Qed.

Lemma silent_execvp (file : string) (argv : list string) : silent (execvp file argv).
Proof.
  intros p. unfold silent_at, execvp. destruct (k_exec_ok (kern p) file);
    eexists [_]; split; reflexivity.
Qed.

Lemma silent_waitpid (pid status options : Z) : silent (waitpid pid status options).
Proof.
  intros p. unfold silent_at, waitpid. destruct (waits p) as [|[r st] ws];
    eexists [_]; split; reflexivity.
Qed.

Lemma silent_my_status (status : Z) : silent (my_status status).
Proof.
  intros p. unfold silent_at. rewrite my_status_run. cbn [final].
  eexists [_; _]. split; [trace_norm; reflexivity|].
  unfold status_text. destruct (WIFEXITED status); reflexivity.
Qed.

Create HintDb silent.

#[export] Hint Resolve silent_bind silent_if silent_ret silent_perror silent_fflush
  silent_exit silent_close silent_open silent_dup2 silent_sigaction silent_execvp
  silent_waitpid silent_my_status : silent.

Lemma silent_output_redirection (filename : string) :
  silent (output_redirection filename).
Proof. unfold output_redirection. auto 20 with silent. Qed.

Lemma silent_input_redirection (filename : string) :
  silent (input_redirection filename).
Proof. unfold input_redirection. auto 20 with silent. Qed.

#[export] Hint Resolve silent_output_redirection silent_input_redirection : silent.

Lemma silent_child_finish (args : list string) (info : shell_info) :
  silent (child_finish args info).
Proof. unfold child_finish. auto 20 with silent. Qed.

(** ** The process launcher *)

Lemma waitpid_run (child status options : Z) (p : process) :
  waitpid child status options p =
    Ret (wait_answer p status) (final (waitpid child status options p))
  /\ events_since p (final (waitpid child status options p))
       = [EvWaitpid child options (fst (wait_answer p status))]
  /\ stop_background (final (waitpid child status options p)) = stop_background p.
Proof.
  unfold waitpid, wait_answer. destruct (waits p) as [|[r st] ws]; cbn [final fst];
    (split; [reflexivity | split; [since | reflexivity]]).
Qed.

Lemma other_cmd_fork_fails (args : list string) (info : shell_info)
  (p : process) (fs : list Z) :
  forks p = -1 :: fs ->
  other_cmd args info p =
    Exit 1 (log (EvExit 1) (log (EvPerror ("fork() " +++ nl))
                               (log (EvFork (-1)) (with_forks fs p)))).
Proof.
  intros F. unfold other_cmd. rewrite run_bind. unfold fork. rewrite F.
  reflexivity.
Qed.

Lemma other_cmd_child_foreground (args : list string) (info : shell_info)
  (p : process) (fs : list Z) :
  forks p = 0 :: fs ->
  run_in_background info p = false ->
  other_cmd args info p =
    (sigaction SIGINT default_once_action ;; child_finish args info)
      (child_start fs p).
Proof.
  intros F B. unfold other_cmd. rewrite run_bind. unfold fork. rewrite F.
  cbn [Z.eqb]. rewrite run_bind. unfold custom_IG at 1.
  change (sigaction SIGTSTP _ (log (EvFork 0) (with_forks fs p)))
    with (@Ret unit tt (child_start fs p)).
  cbv beta iota. rewrite run_bind.
  change (run_in_background info (child_start fs p)) with (run_in_background info p).
  rewrite B. reflexivity.
Qed.

Lemma other_cmd_child_background (args : list string) (info : shell_info)
  (p : process) (fs : list Z) :
  forks p = 0 :: fs ->
  run_in_background info p = true ->
  other_cmd args info p =
    ((if negb (output_redirect info =? 0) then ret tt
      else output_redirection "/dev/null") ;;
     (if negb (input_redirect info =? 0) then ret tt
      else input_redirection "/dev/null") ;;
     child_finish args info)
      (log EvFflush (log (EvPrintf (announcement (pid p))) (child_start fs p))).
Proof.
  intros F B. unfold other_cmd. rewrite run_bind. unfold fork. rewrite F.
  cbn [Z.eqb]. rewrite run_bind. unfold custom_IG at 1.
  change (sigaction SIGTSTP _ (log (EvFork 0) (with_forks fs p)))
    with (@Ret unit tt (child_start fs p)).
  cbv beta iota. rewrite run_bind.
  change (run_in_background info (child_start fs p)) with (run_in_background info p).
  rewrite B.
  rewrite run_bind. unfold getpid at 1. cbv beta iota.
  rewrite run_bind. unfold printf at 1. cbv beta iota.
  rewrite run_bind. unfold fflush_stdout at 1. cbv beta iota.
  change (pid (child_start fs p)) with (pid p).
  fold (announcement (pid p)).
  set (q := log EvFflush (log (EvPrintf (announcement (pid p))) (child_start fs p))).
  rewrite !run_bind.
  destruct ((if negb (output_redirect info =? 0) then ret tt
             else output_redirection "/dev/null") q) as [[] q1| | |];
    reflexivity.
Qed.

Lemma other_cmd_parent_foreground (args : list string) (info : shell_info)
  (p : process) (child : Z) (fs : list Z) :
  forks p = child :: fs ->
  child <> -1 -> child <> 0 ->
  run_in_background info p = false ->
  other_cmd args info p =
    (r <- waitpid child (exit_status info) 0 ;;
     (if negb (snd r =? 0) then my_status (snd r) else ret tt) ;;
     ret (set_exit_status (snd r) info))
      (parent_start child fs p).
Proof.
  intros F N1 N0 B. unfold other_cmd. rewrite run_bind. unfold fork. rewrite F.
  cbv beta iota.
  destruct (Z.eqb_spec child (-1)) as [E|_]; [contradiction|].
  destruct (Z.eqb_spec child 0) as [E|_]; [contradiction|].
  change (run_in_background info (log (EvFork child) (with_forks fs p)))
    with (run_in_background info p).
  rewrite B. reflexivity.
Qed.

Lemma other_cmd_parent_background (args : list string) (info : shell_info)
  (p : process) (child : Z) (fs : list Z) :
  forks p = child :: fs ->
  child <> -1 -> child <> 0 ->
  run_in_background info p = true ->
  other_cmd args info p =
    (r <- waitpid child (exit_status info) WNOHANG ;;
     ret (set_exit_status (snd r) info))
      (parent_start child fs p).
Proof.
  intros F N1 N0 B. unfold other_cmd. rewrite run_bind. unfold fork. rewrite F.
  cbv beta iota.
  destruct (Z.eqb_spec child (-1)) as [E|_]; [contradiction|].
  destruct (Z.eqb_spec child 0) as [E|_]; [contradiction|].
  change (run_in_background info (log (EvFork child) (with_forks fs p)))
    with (run_in_background info p).
  rewrite B. reflexivity.
Qed.

Lemma foreground_only_runs_foreground (info : shell_info) (p : process) :
  stop_background p <> 0 -> run_in_background info p = false.
Proof.
  intros H. unfold run_in_background.
  destruct (Z.eqb_spec (stop_background p) 0); [contradiction|].
  apply andb_false_r.
Qed.

Lemma parent_foreground_result (args : list string) (info : shell_info)
  (p : process) (child : Z) (fs : list Z) :
  forks p = child :: fs ->
  child <> -1 -> child <> 0 ->
  run_in_background info p = false ->
  let st := snd (wait_answer p (exit_status info)) in
  let p' := final (other_cmd args info p) in
  other_cmd args info p = Ret (set_exit_status st info) p'
  /\ trace p' =
       trace p ++
       EvFork child
       :: EvWaitpid child 0 (fst (wait_answer p (exit_status info)))
       :: (if st =? 0 then [] else [EvPrintf (status_text st); EvFflush])
  /\ stop_background p' = stop_background p.
Proof.
  intros F N1 N0 B st p'. subst st p'.
  rewrite (other_cmd_parent_foreground args info p child fs F N1 N0 B).
  rewrite run_bind. unfold waitpid, wait_answer, parent_start. proj.
  destruct (waits p) as [|[r st] ws]; cbn [fst snd]; rewrite run_bind.
  - destruct (exit_status info =? 0); cbn [negb]; try rewrite my_status_run;
      run; cbn [final]; repeat split; trace_norm; reflexivity.
  - destruct ((if 0 <? r then st else exit_status info) =? 0); cbn [negb];
      try rewrite my_status_run;
      run; cbn [final]; repeat split; trace_norm; reflexivity.
Qed.

Lemma status_text_not_announcement (status : Z) :
  is_announcement (EvPrintf (status_text status)) = false.
Proof.
  unfold status_text. destruct (WIFEXITED status); reflexivity.
Qed.

(** C1.  While [stop_background] is not 0, a command whose background flag
    is set is run in the foreground.  In the parent (fork returned the
    child's pid) [other_cmd] returns after a [waitpid] on that child with
    options 0, a blocking wait, followed only by the decoded status when it
    is not 0; in the child (fork returned 0) SIGTSTP is ignored, SIGINT is
    reset to its default, and what follows prints no announcement.  No
    background-start announcement is printed on either side. *)
Theorem foreground_only_forces_foreground (args : list string)
  (info : shell_info) (p : process) (child : Z) (fs : list Z) :
  background info <> 0 ->
  stop_background p <> 0 ->
  forks p = child :: fs ->
  (child <> -1 -> child <> 0 ->
   exists info' p',
     other_cmd args info p = Ret info' p'
     /\ exit_status info' = snd (wait_answer p (exit_status info))
     /\ events_since p p' =
          EvFork child
          :: EvWaitpid child 0 (fst (wait_answer p (exit_status info)))
          :: (if exit_status info' =? 0 then []
              else [EvPrintf (status_text (exit_status info')); EvFflush])
     /\ announced (events_since p p') = false)
  /\ (child = 0 ->
      exists l,
        events_since p (final (other_cmd args info p)) =
          [EvFork 0; EvSigaction SIGTSTP ignore_action;
           EvSigaction SIGINT default_once_action] ++ l
        /\ announced l = false).
Proof.
  intros _ S F.
  pose proof (foreground_only_runs_foreground info p S) as B.
  split.
  - intros N1 N0.
    destruct (parent_foreground_result args info p child fs F N1 N0 B)
      as (R & T & _).
    eexists; eexists. split; [exact R|].
    cbn [exit_status set_exit_status].
    split; [reflexivity|].
    rewrite (events_since_app _ _ _ T).
    split; [reflexivity|].
    cbn [announced existsb is_announcement orb].
    destruct (snd (wait_answer p (exit_status info)) =? 0); [reflexivity|].
    cbn [existsb orb]. rewrite status_text_not_announcement. reflexivity.
  - intros C0. subst child.
    rewrite (other_cmd_child_foreground args info p fs F B).
    rewrite run_bind.
    change (sigaction SIGINT default_once_action (child_start fs p))
      with (@Ret unit tt (log (EvSigaction SIGINT default_once_action)
                            (with_sigint default_once_action (child_start fs p)))).
    cbv beta iota.
    destruct (silent_child_finish args info
                (log (EvSigaction SIGINT default_once_action)
                   (with_sigint default_once_action (child_start fs p))))
      as (l & T & A).
    exists l. split; [|exact A].
    apply events_since_app. rewrite T. unfold child_start. trace_norm.
    reflexivity.
Qed.

(** C1 on a shell in foreground-only mode running [sleep 5 &]: the parent
    forks child 4242 and waits for it with options 0. *)
Lemma foreground_only_forces_foreground_witness :
  exists info' p',
    other_cmd ["sleep"; "5"] (command 1 0 0 EmptyString EmptyString)
              (shell_process 1 4242 [(4242, 0)]) = Ret info' p'
    /\ events_since (shell_process 1 4242 [(4242, 0)]) p'
         = [EvFork 4242; EvWaitpid 4242 0 4242].
Proof.
  destruct (foreground_only_forces_foreground
              ["sleep"; "5"] (command 1 0 0 EmptyString EmptyString)
              (shell_process 1 4242 [(4242, 0)]) 4242 []) as [H _].
  - cbn. lia.
  - cbn. lia.
  - reflexivity.
  - destruct H as (info' & p' & R & E & T & A); [lia | lia |].
    exists info', p'. split; [exact R|].
    rewrite T, E. reflexivity.
Defined.

(** C3, counterexample.  With the suspend flag off, the parent of the
    background command [sleep 5 &] forks child 4242, polls it once with
    WNOHANG and returns: it makes no [printf], so it does not print the
    announcement. *)
Lemma parent_announces_background_fails : ~ parent_announces_background.
Proof.
  intros H.
  destruct (H ["sleep"; "5"] (command 1 0 0 EmptyString EmptyString)
              (shell_process 0 4242 [(0, 0)]) 4242 [] eq_refl eq_refl eq_refl)
    as (info' & p' & r & R & _ & P).
  vm_compute in R. inversion R; subst p'. clear R.
  vm_compute in P.
  destruct P as [P|[P|[]]]; discriminate.
Qed.

(** C3, amended.  For an effectively background command, the parent makes
    one [waitpid] on that child with WNOHANG and returns without printing
    anything; the announcement [background pid is <pid>] is printed and
    flushed by the child, with its own pid, right after it has set SIGTSTP
    to be ignored and before its redirections and the image replacement,
    which print no further announcement. *)
Theorem background_announced_by_child (args : list string)
  (info : shell_info) (p : process) (child : Z) (fs : list Z) :
  run_in_background info p = true ->
  forks p = child :: fs ->
  (child <> -1 -> child <> 0 ->
   exists info' p',
     other_cmd args info p = Ret info' p'
     /\ events_since p p' =
          [EvFork child;
           EvWaitpid child WNOHANG (fst (wait_answer p (exit_status info)))])
  /\ (child = 0 ->
      exists l,
        events_since p (final (other_cmd args info p)) =
          [EvFork 0; EvSigaction SIGTSTP ignore_action;
           EvPrintf (announcement (pid p)); EvFflush] ++ l
        /\ announced l = false).
Proof.
  intros B F. split.
  - intros N1 N0.
    rewrite (other_cmd_parent_background args info p child fs F N1 N0 B).
    rewrite run_bind. unfold waitpid, wait_answer, parent_start. proj.
    destruct (waits p) as [|[r st] ws]; run;
      eexists; eexists; (split; [reflexivity | since]).
  - intros C0. subst child.
    rewrite (other_cmd_child_background args info p fs F B).
    set (q := log EvFflush (log (EvPrintf (announcement (pid p))) (child_start fs p))).
    assert (S : silent
                  ((if negb (output_redirect info =? 0) then ret tt
                    else output_redirection "/dev/null") ;;
                   (if negb (input_redirect info =? 0) then ret tt
                    else input_redirection "/dev/null") ;;
                   child_finish args info)).
    { pose proof (silent_child_finish args info). auto 20 with silent. }
    destruct (S q) as (l & T & A).
    exists l. split; [|exact A].
    apply events_since_app. rewrite T. subst q. unfold child_start. trace_norm.
    reflexivity.
Qed.

(** The amended C3 on [sleep 5 &] with the suspend flag off, in the parent. *)
Lemma background_announced_by_child_witness :
  exists info' p',
    other_cmd ["sleep"; "5"] (command 1 0 0 EmptyString EmptyString)
              (shell_process 0 4242 [(0, 0)]) = Ret info' p'
    /\ events_since (shell_process 0 4242 [(0, 0)]) p'
         = [EvFork 4242; EvWaitpid 4242 WNOHANG 0].
Proof.
  destruct (background_announced_by_child
              ["sleep"; "5"] (command 1 0 0 EmptyString EmptyString)
              (shell_process 0 4242 [(0, 0)]) 4242 [] eq_refl eq_refl) as [H _].
  destruct H as (info' & p' & R & T); [lia | lia |].
  exists info', p'. split; [exact R | exact T].
Defined.

(** ** Standard streams of the child *)






(** ** The three status reports *)

Lemma execute_cmd_status (rest : list string) (info : shell_info) (p : process) :
  execute_cmd ("status" :: rest) info p =
    (my_status (exit_status info) ;;
     info' <- (fun q => reap (S (List.length (waits q))) info q) ;;
     ret (1, info')) p.
Proof.
  unfold execute_cmd.
  change (String.eqb "status" "exit") with false.
  change (String.eqb "status" "cd") with false.
  change (String.eqb "status" "status") with true.
  cbv beta iota. rewrite !run_bind. rewrite my_status_run. reflexivity.
Qed.

Lemma reap_collects (fuel : nat) (info : shell_info) (p : process)
  (corpse status : Z) (ws : list (Z * Z)) :
  waits p = (corpse, status) :: ws ->
  0 < corpse ->
  reap (S fuel) info p =
    (printf ("background pid " +++ dec corpse +++ " is done: ") ;;
     fflush_stdout ;;
     my_status status ;;
     reap fuel (set_exit_status status info))
      (log (EvWaitpid (-1) WNOHANG corpse) (with_waits ws p)).
Proof.
  intros W C. cbn [reap]. rewrite run_bind. unfold waitpid. rewrite W.
  cbv beta iota. cbn [fst snd].
  destruct (Z.ltb_spec 0 corpse) as [_|N]; [|lia].
  reflexivity.
Qed.

(** The loop stops at the first answer that is not positive. *)
Lemma reap_stops (fuel : nat) (info : shell_info) (p : process) :
  fst (wait_answer p (exit_status info)) <= 0 ->
  exists p',
    reap (S fuel) info p = Ret (set_exit_status (exit_status info) info) p'
    /\ trace p' = trace p ++ [EvWaitpid (-1) WNOHANG
                                (fst (wait_answer p (exit_status info)))]
    /\ stop_background p' = stop_background p.
Proof.
  unfold wait_answer. intros H. cbn [reap]. rewrite run_bind. unfold waitpid.
  destruct (waits p) as [|[r st] ws]; cbn [fst snd] in *.
  - eexists. split; [reflexivity|]. split; reflexivity.
  - destruct (Z.ltb_spec 0 r) as [P|_]; [lia|].
    eexists. split; [reflexivity|]. split; reflexivity.
Qed.

(** C5.  [my_status] prints [exit value N], with N the exit code, for a
    status word on which WIFEXITED holds, and [terminated by signal N], with
    N the signal number, otherwise; on the status of a child that called
    [exit(code)] it prints that code and on the status of a child killed by
    a signal it prints that signal.  The [status] built-in, the report of
    the reaping loop and the report after a foreground child that did not
    end with status 0 are all calls of this one function on the status
    word. *)
Theorem my_status_decoding_shared (status : Z) (p : process) :
  (WIFEXITED status = true ->
   my_status status p =
     Ret tt (log EvFflush
               (log (EvPrintf ("exit value " +++ dec (WEXITSTATUS status) +++ " " +++ nl)) p)))
  /\ (WIFEXITED status = false ->
      my_status status p =
        Ret tt (log EvFflush
                  (log (EvPrintf ("terminated by signal " +++ dec (WTERMSIG status)
                                  +++ " " +++ nl)) p)))
  /\ (forall code, 0 <= code < 256 ->
      status = wait_status (Exited code) ->
      events_since p (final (my_status status p)) =
        [EvPrintf ("exit value " +++ dec code +++ " " +++ nl); EvFflush])
  /\ (forall sig core, 0 < sig < 128 ->
      status = wait_status (Signaled sig core) ->
      events_since p (final (my_status status p)) =
        [EvPrintf ("terminated by signal " +++ dec sig +++ " " +++ nl); EvFflush])
  /\ (forall rest info,
      exit_status info = status ->
      execute_cmd ("status" :: rest) info p =
        (my_status status ;;
         info' <- (fun q => reap (S (List.length (waits q))) info q) ;;
         ret (1, info')) p)
  /\ (forall fuel info corpse ws,
      waits p = (corpse, status) :: ws ->
      0 < corpse ->
      reap (S fuel) info p =
        (printf ("background pid " +++ dec corpse +++ " is done: ") ;;
         fflush_stdout ;;
         my_status status ;;
         reap fuel (set_exit_status status info))
          (log (EvWaitpid (-1) WNOHANG corpse) (with_waits ws p)))
  /\ (forall args info child fs r ws,
      forks p = child :: fs ->
      child <> -1 -> child <> 0 ->
      run_in_background info p = false ->
      waits p = (r, status) :: ws ->
      0 < r ->
      status <> 0 ->
      other_cmd args info p =
        (my_status status ;; ret (set_exit_status status info))
          (log (EvWaitpid child 0 r) (with_waits ws (parent_start child fs p)))).
Proof.
  split; [intros E; unfold my_status; rewrite E; reflexivity|].
  split; [intros E; unfold my_status; rewrite E; reflexivity|].
  split.
  { intros code R ->. destruct (wait_status_exited code R) as [E1 E2].
    rewrite my_status_run. cbn [final]. unfold status_text. rewrite E1, E2. since. }
  split.
  { intros sig core R ->. destruct (wait_status_signaled sig core R) as [E1 E2].
    rewrite my_status_run. cbn [final]. unfold status_text. rewrite E1, E2. since. }
  split.
  { intros rest info <-. apply execute_cmd_status. }
  split.
  { intros fuel info corpse ws W C. apply reap_collects; assumption. }
  intros args info child fs r ws F N1 N0 B W P NZ.
  rewrite (other_cmd_parent_foreground args info p child fs F N1 N0 B).
  rewrite run_bind. unfold waitpid.
  change (waits (parent_start child fs p)) with (waits p). rewrite W.
  cbv beta iota. cbn [fst snd].
  destruct (Z.ltb_spec 0 r) as [_|N]; [|lia].
  destruct (Z.eqb_spec status 0) as [E|_]; [contradiction|].
  reflexivity.
Qed.

(** C5 on a child killed by signal 15. *)
Lemma my_status_decoding_shared_witness :
  events_since (shell_process 0 0 [])
    (final (my_status (wait_status (Signaled 15 false)) (shell_process 0 0 [])))
  = [EvPrintf ("terminated by signal 15 " +++ nl); EvFflush].
Proof.
  destruct (my_status_decoding_shared (wait_status (Signaled 15 false))
              (shell_process 0 0 [])) as (_ & _ & _ & H & _).
  apply (H 15 false); [lia | reflexivity].
Defined.

(** ** The trace only grows *)

Lemma silent_grows (A : Type) (c : M A) : silent c -> grows c.
Proof. intros S p. destruct (S p) as (l & T & _). exists l. exact T. Qed.

Lemma grows_bind (A B : Type) (c : M A) (k : A -> M B) :
  grows c -> (forall a, grows (k a)) -> grows (bind c k).
Proof.
  intros C K p. rewrite run_bind. destruct (C p) as (l1 & T1).
  destruct (c p) as [a p'|code p'|file argv p'|f p'] eqn:E; cbn [final] in *;
    try (exists l1; exact T1).
  destruct (K a p') as (l2 & T2).
  exists (l1 ++ l2). rewrite T2, T1, app_assoc. reflexivity.
Qed.

Lemma grows_if (A : Type) (b : bool) (c1 c2 : M A) :
  grows c1 -> grows c2 -> grows (if b then c1 else c2).
Proof. destruct b; auto. Qed.

Lemma grows_state_if (A : Type) (b : process -> bool) (c1 c2 : M A) :
  grows c1 -> grows c2 -> grows (fun p => if b p then c1 p else c2 p).
Proof. intros C1 C2 p. destruct (b p); [apply C1 | apply C2]. Qed.

Lemma grows_ret (A : Type) (a : A) : grows (ret a).
Proof. apply silent_grows, silent_ret. Qed.

Lemma grows_printf (text : string) : grows (printf text).
Proof. intros p. exists [EvPrintf text]. reflexivity. Qed.

Lemma grows_raise (A : Type) (f : fault) : grows (@raise A f).
Proof. intros p. exists []. symmetry. apply app_nil_r. Qed.

Lemma grows_getpid : grows getpid.
Proof. intros p. exists []. symmetry. apply app_nil_r. Qed.

Lemma grows_getenv : grows getenv_HOME.
Proof. intros p. exists []. symmetry. apply app_nil_r. Qed.

Lemma grows_chdir (path : option string) : grows (chdir path).
Proof. intros p. eexists [_]. reflexivity. Qed.

Lemma grows_fork : grows fork.
Proof.
  intros p. unfold fork. destruct (forks p); eexists [_]; reflexivity.
Qed.

Lemma grows_lift (A : Type) (r : fault + A) : grows (lift r).
Proof. destruct r; [apply grows_raise | apply grows_ret]. Qed.

Create HintDb grows.

#[export] Hint Resolve grows_bind grows_if grows_state_if grows_ret grows_printf
  grows_raise grows_getpid grows_getenv grows_chdir grows_fork grows_lift : grows.

#[export] Hint Extern 1 (grows _) =>
  (apply silent_grows; solve [auto 20 with silent]) : grows.

Lemma grows_my_cd (args : list string) : grows (my_cd args).
Proof. unfold my_cd. destruct (nth_error args 1); auto 20 with grows. Qed.

Lemma grows_my_exit : grows my_exit.
Proof. unfold my_exit. auto 20 with grows. Qed.

Lemma grows_other_cmd (args : list string) (info : shell_info) :
  grows (other_cmd args info).
Proof.
  unfold other_cmd.
  apply grows_bind; [auto with grows|]. intros spawnPid.
  apply grows_if; [auto 20 with grows|].
  apply grows_if.
  - apply grows_bind; [unfold custom_IG; auto with grows|]. intros _.
    apply grows_bind; [|auto 30 with grows].
    apply grows_state_if; auto 30 with grows.
  - apply grows_state_if; auto 30 with grows.
Qed.

Lemma grows_reap (fuel : nat) (info : shell_info) : grows (reap fuel info).
Proof.
  revert info. induction fuel as [|fuel IH]; intros info; cbn [reap];
    [auto with grows|].
  apply grows_bind; [auto with grows|]. intros r.
  apply grows_if; [|auto with grows].
  auto 20 with grows.
Qed.

Lemma grows_execute_cmd (args : list string) (info : shell_info) :
  grows (execute_cmd args info).
Proof.
  unfold execute_cmd. destruct args as [|arg0 rest]; [auto with grows|].
  pose proof grows_my_cd. pose proof grows_my_exit. pose proof grows_other_cmd.
  apply grows_bind.
  - auto 30 with grows.
  - intros r. apply grows_bind; [|auto with grows].
    intros p. apply grows_reap.
Qed.

Lemma grows_get_input (incoming : option string) : grows (get_input incoming).
Proof. unfold get_input. destruct incoming; auto 20 with grows. Qed.

Lemma grows_shell_loop (input : list string) (info : shell_info) :
  grows (shell_loop input info).
Proof.
  revert info. pose proof grows_get_input. pose proof grows_execute_cmd.
  induction input as [|incoming input IH]; intros info; cbn [shell_loop];
    auto 30 with grows.
Qed.

(** ** A failed [dup2] in [input_redirection] *)

(** C6.  Under a kernel that refuses [dup2], [input_redirection] opens the
    file, fails to duplicate it onto descriptor 0, prints its diagnostic and
    calls [exit(0)]: the child ends with status 0, which is the status of a
    success.  [output_redirection] in the same state calls [exit(1)].  A
    foreground [cat < in.txt] whose child ends this way hands the parent the
    wait status of [exit(0)], and the parent reports nothing. *)
Theorem input_redirection_dup2_failure_exits_zero :
  input_redirection "in.txt" child_no_dup2 =
    Exit 0 (log (EvExit 0)
              (log (EvPerror "Input file could not be redirected")
                 (log (EvDup2 3 0 (-1)) (opened "in.txt" O_RDONLY 0 child_no_dup2))))
  /\ output_redirection "out.txt" child_no_dup2 =
       Exit 1 (log (EvExit 1)
                 (log (EvPerror "Output file could not be redirected")
                    (log (EvDup2 3 1 (-1))
                       (opened "out.txt" output_flags 511 child_no_dup2))))
  /\ (exists p',
        other_cmd ["cat"] (command 0 0 1 EmptyString "in.txt") child_no_dup2
          = Exit 0 p')
  /\ events_since (shell_process 0 4242 [(4242, wait_status (Exited 0))])
       (final (other_cmd ["cat"] (command 0 0 1 EmptyString "in.txt")
                 (shell_process 0 4242 [(4242, wait_status (Exited 0))])))
     = [EvFork 4242; EvWaitpid 4242 0 4242].
Proof.
  split; [reflexivity|]. split; [reflexivity|].
  split; [eexists; reflexivity | reflexivity].
Qed.

(** Every other failure of the redirection unit ends the child with
    status 1. *)
Lemma redirection_failures_exit_one (filename : string) (p : process) :
  (k_open_ok (kern p) filename output_flags = false ->
   exists p', output_redirection filename p = Exit 1 p')
  /\ (k_open_ok (kern p) filename O_RDONLY = false ->
      exists p', input_redirection filename p = Exit 1 p')
  /\ (k_open_ok (kern p) filename output_flags = true ->
      k_dup2_ok (kern p) (Z.of_nat (lowest_free (fds p))) 1 = false ->
      exists p', output_redirection filename p = Exit 1 p').
Proof.
  split; [|split].
  - intros H. eexists. apply output_redirection_open_fails. exact H.
  - intros H. eexists. apply input_redirection_open_fails. exact H.
  - intros H D. eexists. apply output_redirection_dup2_fails; assumption.
Qed.

(** ** [status] as the first command *)

Lemma parse_line_status (pid : Z) (info : shell_info) :
  parse_line pid "status" info = inr (info, ["status"]).
Proof. reflexivity. Qed.

(** C8.  [small_shell] declares [info] without an initialiser and
    [init_shell_info] does not assign [exit_status], so when the first line
    is [status] the shell prints the decoding of whatever the stack held: it
    prints [exit value 0] if that was 0 and [terminated by signal 11] if that
    was 11. *)
Theorem first_status_reads_stack (stack : shell_info) (rest : list string)
  (p : process) :
  (exists l,
     events_since p (final (small_shell stack (("status" +++ nl) :: rest) p)) =
       [EvSigaction SIGINT ignore_action; EvSigaction SIGTSTP handler_action;
        EvPrintf title; EvFflush;
        EvPrintf ": "; EvFflush;
        EvPrintf (status_text (exit_status stack)); EvFflush] ++ l)
  /\ status_text (exit_status (stack_with 0)) = "exit value 0 " +++ nl
  /\ status_text (exit_status (stack_with 11)) = "terminated by signal 11 " +++ nl.
Proof.
  split; [|split; reflexivity].
  unfold small_shell. rewrite run_bind.
  change (custom_SIG p)
    with (@Ret unit tt (log (EvSigaction SIGINT ignore_action)
                          (with_sigint ignore_action p))).
  cbv beta iota. rewrite run_bind.
  set (p1 := log (EvSigaction SIGINT ignore_action) (with_sigint ignore_action p)).
  change (custom_SIGTSTP p1)
    with (@Ret unit tt (log (EvSigaction SIGTSTP handler_action)
                          (with_sigtstp handler_action p1))).
  cbv beta iota. rewrite run_bind. unfold printf at 1. cbv beta iota.
  rewrite run_bind. unfold fflush_stdout at 1. cbv beta iota.
  fold title. rewrite shell_loop_turn.
  change (buffer_after_strtok nl_char ("status" +++ nl)) with "status".
  rewrite parse_line_status. cbv beta iota. rewrite run_bind.
  rewrite execute_cmd_status. rewrite run_bind, my_status_run.
  cbn [exit_status init_shell_info set_background set_input_redirect
       set_output_redirect set_input_filename set_output_filename].
  match goal with
  | |- context [final (match ?c ?q with _ => _ end)] =>
      assert (G : grows (fun q' =>
                match c q' with
                | Ret a p' =>
                    (if negb (fst a =? 0) then shell_loop rest (snd a) else ret tt) p'
                | Exit code p' => Exit code p'
                | Exec file argv p' => Exec file argv p'
                | Fault f p' => Fault f p'
                end));
      [|destruct (G q) as (l & T)]
  end.
  - pose proof grows_shell_loop. pose proof grows_reap.
    apply (grows_bind _ _
             (info' <- (fun q => reap (S (List.length (waits q)))
                                   (init_shell_info stack) q) ;;
              ret (1, info'))
             (fun a => if negb (fst a =? 0) then shell_loop rest (snd a) else ret tt)).
    + apply grows_bind; [intros q; apply grows_reap | auto with grows].
    + intros a. auto with grows.
  - exists l. apply events_since_app. cbv beta in T. rewrite T. subst p1.
    trace_norm. reflexivity.
Qed.

(** ** The fuel of the two loops is never used up *)

Lemma fuel_safe_bind (A B : Type) (c : M A) (k : A -> M B) :
  fuel_safe c -> (forall a, fuel_safe (k a)) -> fuel_safe (bind c k).
Proof.
  intros C K p q. rewrite run_bind.
  destruct (c p) as [a p'|code p'|file argv p'|f p'] eqn:E; try discriminate.
  - apply K.
  - intros H. inversion H; subst. exact (C p q E).
Qed.

Lemma fuel_safe_if (A : Type) (b : bool) (c1 c2 : M A) :
  fuel_safe c1 -> fuel_safe c2 -> fuel_safe (if b then c1 else c2).
Proof. destruct b; auto. Qed.

Lemma fuel_safe_state_if (A : Type) (b : process -> bool) (c1 c2 : M A) :
  fuel_safe c1 -> fuel_safe c2 -> fuel_safe (fun p => if b p then c1 p else c2 p).
Proof. intros C1 C2 p q. destruct (b p); [apply C1 | apply C2]. Qed.

(** A library or system call: it returns, exits or replaces the image. *)
Ltac call_safe :=
  intros p q;
  cbv beta delta [ret Monad_M m_ret printf fflush_stdout perror write Sys.exit
                  getpid getenv_HOME chdir fork waitpid Sys.open dup2 close
                  sigaction execvp];
  cbv beta iota;
  repeat match goal with
         | |- context [match ?x with _ => _ end] => destruct x
         end;
  discriminate.

Lemma fuel_safe_ret (A : Type) (a : A) : fuel_safe (ret a).
Proof. call_safe. Qed.

Lemma fuel_safe_printf (text : string) : fuel_safe (printf text).
Proof. call_safe. Qed.

Lemma fuel_safe_fflush : fuel_safe fflush_stdout.
Proof. call_safe. Qed.

Lemma fuel_safe_perror (text : string) : fuel_safe (perror text).
Proof. call_safe. Qed.

Lemma fuel_safe_exit (A : Type) (code : Z) : fuel_safe (@Sys.exit A code).
Proof. call_safe. Qed.

Lemma fuel_safe_getpid : fuel_safe getpid.
Proof. call_safe. Qed.

Lemma fuel_safe_getenv : fuel_safe getenv_HOME.
Proof. call_safe. Qed.

Lemma fuel_safe_chdir (path : option string) : fuel_safe (chdir path).
Proof. call_safe. Qed.

Lemma fuel_safe_fork : fuel_safe fork.
Proof. call_safe. Qed.

Lemma fuel_safe_waitpid (pid status options : Z) :
  fuel_safe (waitpid pid status options).
Proof. call_safe. Qed.

Lemma fuel_safe_open (path : string) (flags mode : Z) :
  fuel_safe (Sys.open path flags mode).
Proof. call_safe. Qed.

Lemma fuel_safe_dup2 (oldfd newfd : Z) : fuel_safe (dup2 oldfd newfd).
Proof. call_safe. Qed.

Lemma fuel_safe_close (fd : Z) : fuel_safe (close fd).
Proof. call_safe. Qed.

Lemma fuel_safe_sigaction (signo : Z) (act : sigaction_t) :
  fuel_safe (sigaction signo act).
Proof. call_safe. Qed.

Lemma fuel_safe_execvp (file : string) (argv : list string) :
  fuel_safe (execvp file argv).
Proof. call_safe. Qed.

Lemma fuel_safe_raise (A : Type) (f : fault) :
  f <> OutOfFuel -> fuel_safe (@raise A f).
Proof. intros N p q H. inversion H. contradiction. Qed.

Create HintDb fuel.

#[export] Hint Resolve fuel_safe_bind fuel_safe_if fuel_safe_state_if fuel_safe_ret
  fuel_safe_printf fuel_safe_fflush fuel_safe_perror fuel_safe_exit
  fuel_safe_getpid fuel_safe_getenv fuel_safe_chdir fuel_safe_fork
  fuel_safe_waitpid fuel_safe_open fuel_safe_dup2 fuel_safe_close
  fuel_safe_sigaction fuel_safe_execvp : fuel.

Lemma fuel_safe_my_status (status : Z) : fuel_safe (my_status status).
Proof. unfold my_status. auto 20 with fuel. Qed.

Lemma fuel_safe_other_cmd (args : list string) (info : shell_info) :
  fuel_safe (other_cmd args info).
Proof.
  pose proof fuel_safe_my_status.
  unfold other_cmd, custom_IG, output_redirection, input_redirection.
  auto 40 with fuel.
Qed.

Lemma fuel_safe_my_cd (args : list string) : fuel_safe (my_cd args).
Proof. unfold my_cd. destruct (nth_error args 1); auto 20 with fuel. Qed.

(** The reaping loop ends before its fuel does: each positive answer takes
    one element from the answers that remain. *)
Lemma reap_fuel (fuel : nat) (info : shell_info) (p q : process) :
  (List.length (waits p) < fuel)%nat ->
  reap fuel info p <> Fault OutOfFuel q.
Proof.
  revert info p. induction fuel as [|fuel IH]; intros info p L; [lia|].
  cbn [reap]. rewrite run_bind. unfold waitpid.
  destruct (waits p) as [|[r st] ws] eqn:W; cbv beta iota; cbn [fst snd].
  - discriminate.
  - destruct (0 <? r); [|discriminate].
    rewrite run_bind. unfold printf at 1. cbv beta iota.
    rewrite run_bind. unfold fflush_stdout at 1. cbv beta iota.
    rewrite run_bind, my_status_run. apply IH. cbn in *. lia.
Qed.

Lemma fuel_safe_execute_cmd (args : list string) (info : shell_info) :
  fuel_safe (execute_cmd args info).
Proof.
  pose proof fuel_safe_my_status. pose proof fuel_safe_other_cmd.
  pose proof fuel_safe_my_cd.
  unfold execute_cmd. destruct args as [|arg0 rest].
  - apply fuel_safe_raise. discriminate.
  - apply fuel_safe_bind; [unfold my_exit; auto 30 with fuel|].
    intros r. apply fuel_safe_bind; [|auto with fuel].
    intros p q. apply reap_fuel. lia.
Qed.

(** The shell, on any input and under any kernel, never ends for lack of
    fuel: the bounds put on its two inner loops are not a restriction. *)
Lemma fuel_safe_shell_loop (input : list string) (info : shell_info) :
  fuel_safe (shell_loop input info).
Proof.
  revert info. pose proof fuel_safe_execute_cmd.
  induction input as [|incoming input IH]; intros info; cbn [shell_loop].
  - unfold get_input. apply fuel_safe_bind; [|auto with fuel].
    apply fuel_safe_bind; [auto with fuel|]. intros _.
    apply fuel_safe_bind; [auto with fuel|]. intros _.
    apply fuel_safe_raise. discriminate.
  - unfold get_input.
    apply fuel_safe_bind; [auto 20 with fuel|]. intros line.
    apply fuel_safe_bind; [auto with fuel|]. intros me.
    apply fuel_safe_bind.
    + intros p q. pose proof (parse_line_total me line (init_shell_info info)) as T.
      destruct (parse_line me line (init_shell_info info)) as [f|r]; cbn.
      * intros E. inversion E; subst. contradiction.
      * discriminate.
    + intros parsed. auto 20 with fuel.
Qed.

(** * Further properties *)

(** ** The parser as a function of the tokens *)

Lemma tokens_strtok_r (s : string) :
  tokens s =
    match strtok_r sp_char s with
    | None => []
    | Some (tok, rest) => tok :: tokens rest
    end.
Proof. apply words_strtok_r. Qed.

Lemma parse_rest_tokens (fuel : nat) (pid : Z) (saveptr : string)
  (info : shell_info) (args : list string) :
  (String.length saveptr < fuel)%nat ->
  parse_rest fuel pid saveptr info args = parse_tokens pid (tokens saveptr) info args.
Proof.
  revert saveptr info args.
  induction fuel as [|fuel IH]; intros s info args L; [lia|].
  cbn [parse_rest]. rewrite (tokens_strtok_r s).
  destruct (strtok_r sp_char s) as [[token s1]|] eqn:T; [|reflexivity].
  apply strtok_r_shorter in T. cbn [parse_tokens].
  destruct (String.eqb token "<");
    [|destruct (String.eqb token ">");
      [|destruct (String.eqb token "&");
        [|destruct (String.eqb token "$$")]]].
  1,2: rewrite (tokens_strtok_r s1);
       destruct (strtok_r sp_char s1) as [[t s2]|] eqn:T2; cbn;
       [ destruct (256 <=? strlen t); [reflexivity|];
         apply strtok_r_shorter in T2; apply IH; lia
       | reflexivity ].
  - apply IH; lia.
  - destruct (store_arg args (dec pid)); [reflexivity|]. apply IH; lia.
  - destruct (store_arg args token); [reflexivity|]. apply IH; lia.
Qed.

Lemma parse_line_tokens (pid : Z) (line : string) (info : shell_info) :
  parse_line pid line info =
    match tokens line with
    | [] => inl NullDeref
    | t :: rest => parse_tokens pid rest info [t]
    end.
Proof.
  unfold parse_line. rewrite (tokens_strtok_r line).
  destruct (strtok_r sp_char line) as [[token s1]|] eqn:T; [|reflexivity].
  apply strtok_r_shorter in T. rewrite store_arg_nil.
  apply parse_rest_tokens. lia.
Qed.

(** X1.  [parse_line] depends on the line only through its list of words:
    two lines with the same words between their spaces, however many spaces
    separate, precede or follow them, give the same result, fault or
    value. *)
Theorem parse_line_spacing (pid : Z) (line1 line2 : string) (info : shell_info) :
  tokens line1 = tokens line2 ->
  parse_line pid line1 info = parse_line pid line2 info.
Proof.
  intros H. rewrite !parse_line_tokens, H. reflexivity.
Qed.

Lemma parse_line_spacing_witness :
  parse_line 100 "  ls   -l > out  " (command 0 0 0 EmptyString EmptyString)
  = parse_line 100 "ls -l > out" (command 0 0 0 EmptyString EmptyString).
Proof.
  apply (parse_line_spacing 100 "  ls   -l > out  " "ls -l > out"). reflexivity.
Defined.

(** Induction on a list of tokens in which the step may drop two tokens. *)
Lemma tokens_ind2 (P : list string -> Prop) :
  P [] ->
  (forall t rest, P rest -> P (tl rest) -> P (t :: rest)) ->
  forall toks, P toks.
Proof.
  intros H0 H2 toks.
  assert (G : P toks /\ P (tl toks)).
  { induction toks as [|t rest [IH1 IH2]]; [split; exact H0|].
    split; [apply H2; assumption | exact IH1]. }
  exact (proj1 G).
Qed.

Ltac token_cases t :=
  destruct (String.eqb t "<") eqn:?;
    [|destruct (String.eqb t ">") eqn:?;
      [|destruct (String.eqb t "&") eqn:?;
        [|destruct (String.eqb t "$$") eqn:?]]]; cbn [orb negb].

Lemma parse_tokens_args (pid : Z) (toks : list string) :
  forall (info info' : shell_info) (args args' : list string),
  parse_tokens pid toks info args = inr (info', args') ->
  args' = args ++ argument_tokens pid toks.
Proof.
  induction toks as [|t rest IH1 IH2] using tokens_ind2; intros info info' args args' H.
  - inversion H. symmetry. apply app_nil_r.
  - cbn [parse_tokens argument_tokens] in *. unfold is_redirect_operator.
    token_cases t.
    1,2: destruct rest as [|name rest']; [discriminate|];
         destruct (256 <=? strlen name); [discriminate|];
         apply IH2 in H; exact H.
    + apply IH1 in H. exact H.
    + unfold store_arg in H. destruct (512 <=? _); [discriminate|].
      apply IH1 in H. rewrite H, <- app_assoc. reflexivity.
    + unfold store_arg in H. destruct (512 <=? _); [discriminate|].
      apply IH1 in H. rewrite H, <- app_assoc. reflexivity.
Qed.

Lemma parse_line_args (pid : Z) (line : string) (info info' : shell_info)
  (args : list string) :
  parse_line pid line info = inr (info', args) ->
  exists name rest,
    tokens line = name :: rest
    /\ args = name :: argument_tokens pid rest.
Proof.
  rewrite parse_line_tokens. intros H.
  destruct (tokens line) as [|name rest]; [discriminate|].
  exists name, rest. split; [reflexivity|].
  apply parse_tokens_args in H. exact H.
Qed.


(** X2.  When [parse_line] succeeds, the argument vector is the first token
    of the line, kept as it is whatever it is, followed by the later tokens
    from which the redirection operators, their file names and every [&]
    are removed and in which each token equal to [$$] is replaced by the
    decimal pid of the shell. *)
Theorem parse_line_arguments (pid : Z) (line : string) (info info' : shell_info)
  (args : list string) :
  parse_line pid line info = inr (info', args) ->
  exists name rest,
    tokens line = name :: rest
    /\ args = name :: argument_tokens pid rest.
Proof. apply parse_line_args. Qed.

Lemma parse_line_arguments_witness :
  exists name rest,
    tokens "$$ -p $$ a$$ < in &" = name :: rest
    /\ ["$$"; "-p"; "100"; "a$$"] = name :: argument_tokens 100 rest.
Proof.
  exact (parse_line_arguments 100 "$$ -p $$ a$$ < in &"
           (command 0 0 0 EmptyString EmptyString)
           (command 1 0 1 EmptyString "in") ["$$"; "-p"; "100"; "a$$"] eq_refl).
Defined.

Lemma redirect_target_some (op : string) (toks : list string) (name : string) :
  redirect_target op toks (Some name) <> None.
Proof.
  revert name. induction toks as [|t rest IH1 IH2] using tokens_ind2; intros name;
    [discriminate|].
  cbn [redirect_target]. destruct (is_redirect_operator t); [|apply IH1].
  destruct rest as [|n rest']; [discriminate|].
  destruct (String.eqb t op); apply IH2.
Qed.

Lemma parse_tokens_input (pid : Z) (toks : list string) :
  forall (info info' : shell_info) (args args' : list string) (cur : option string),
  parse_tokens pid toks info args = inr (info', args') ->
  match redirect_target "<" toks cur with
  | Some name =>
      (cur = Some name /\ input_redirect info' = input_redirect info
       /\ input_filename info' = input_filename info)
      \/ (input_redirect info' = 1 /\ input_filename info' = name)
  | None =>
      input_redirect info' = input_redirect info
      /\ input_filename info' = input_filename info
  end.
Proof.
  induction toks as [|t rest IH1 IH2] using tokens_ind2;
    intros info info' args args' cur H.
  - inversion H; subst. cbn. destruct cur; auto.
  - cbn [parse_tokens redirect_target] in *. unfold is_redirect_operator.
    token_cases t.
    + destruct rest as [|name rest']; [discriminate|].
      destruct (256 <=? strlen name); [discriminate|].
      apply String.eqb_eq in Heqb. subst t. cbn [String.eqb Ascii.eqb Bool.eqb andb].
      specialize (IH2 _ _ _ _ (Some name) H). cbn [tl] in IH2.
      destruct (redirect_target "<" rest' (Some name)) as [n|] eqn:R.
      * right. destruct IH2 as [(E & I1 & I2)|I]; [|exact I].
        inversion E; subst. cbn in I1, I2. auto.
      * exfalso. exact (redirect_target_some "<" rest' name R).
    + destruct rest as [|name rest']; [discriminate|].
      destruct (256 <=? strlen name); [discriminate|].
      apply String.eqb_eq in Heqb0. subst t. cbn [String.eqb Ascii.eqb Bool.eqb andb].
      specialize (IH2 _ _ _ _ cur H). cbn [tl] in IH2. exact IH2.
    + exact (IH1 _ _ _ _ cur H).
    + destruct (store_arg args (dec pid)); [discriminate|]. exact (IH1 _ _ _ _ cur H).
    + destruct (store_arg args t); [discriminate|]. exact (IH1 _ _ _ _ cur H).
Qed.

Lemma parse_tokens_output (pid : Z) (toks : list string) :
  forall (info info' : shell_info) (args args' : list string) (cur : option string),
  parse_tokens pid toks info args = inr (info', args') ->
  match redirect_target ">" toks cur with
  | Some name =>
      (cur = Some name /\ output_redirect info' = output_redirect info
       /\ output_filename info' = output_filename info)
      \/ (output_redirect info' = 1 /\ output_filename info' = name)
  | None =>
      output_redirect info' = output_redirect info
      /\ output_filename info' = output_filename info
  end.
Proof.
  induction toks as [|t rest IH1 IH2] using tokens_ind2;
    intros info info' args args' cur H.
  - inversion H; subst. cbn. destruct cur; auto.
  - cbn [parse_tokens redirect_target] in *. unfold is_redirect_operator.
    token_cases t.
    + destruct rest as [|name rest']; [discriminate|].
      destruct (256 <=? strlen name); [discriminate|].
      apply String.eqb_eq in Heqb. subst t. cbn [String.eqb Ascii.eqb Bool.eqb andb].
      specialize (IH2 _ _ _ _ cur H). cbn [tl] in IH2. exact IH2.
    + destruct rest as [|name rest']; [discriminate|].
      destruct (256 <=? strlen name); [discriminate|].
      apply String.eqb_eq in Heqb0. subst t. cbn [String.eqb Ascii.eqb Bool.eqb andb].
      specialize (IH2 _ _ _ _ (Some name) H). cbn [tl] in IH2.
      destruct (redirect_target ">" rest' (Some name)) as [n|] eqn:R.
      * right. destruct IH2 as [(E & I1 & I2)|I]; [|exact I].
        inversion E; subst. cbn in I1, I2. auto.
      * exfalso. exact (redirect_target_some ">" rest' name R).
    + exact (IH1 _ _ _ _ cur H).
    + destruct (store_arg args (dec pid)); [discriminate|]. exact (IH1 _ _ _ _ cur H).
    + destruct (store_arg args t); [discriminate|]. exact (IH1 _ _ _ _ cur H).
Qed.

(** X3.  When [parse_line] succeeds on a line read into a freshly reset
    [shell_info], the input redirection flag is 1 exactly when a [<] occurs
    in operator position after the first token, and the input file name is
    then the token after the last such [<]; otherwise the flag is 0 and the
    name is empty.  The same holds of [>] and the output fields.  A repeated
    operator silently replaces the earlier file name. *)
Theorem parse_line_redirections_last_wins (pid : Z) (line : string)
  (info info' : shell_info) (args : list string) :
  parse_line pid line (init_shell_info info) = inr (info', args) ->
  match redirect_target "<" (tl (tokens line)) None with
  | Some name => input_redirect info' = 1 /\ input_filename info' = name
  | None => input_redirect info' = 0 /\ input_filename info' = EmptyString
  end
  /\ match redirect_target ">" (tl (tokens line)) None with
     | Some name => output_redirect info' = 1 /\ output_filename info' = name
     | None => output_redirect info' = 0 /\ output_filename info' = EmptyString
     end.
Proof.
  rewrite parse_line_tokens. intros H.
  destruct (tokens line) as [|name rest]; [discriminate|]. cbn [tl].
  pose proof (parse_tokens_input pid rest _ _ _ _ None H) as I.
  pose proof (parse_tokens_output pid rest _ _ _ _ None H) as O.
  split.
  - destruct (redirect_target "<" rest None); [|exact I].
    destruct I as [(E & _)|I]; [discriminate | exact I].
  - destruct (redirect_target ">" rest None); [|exact O].
    destruct O as [(E & _)|O]; [discriminate | exact O].
Qed.

Lemma parse_line_redirections_last_wins_witness :
  (input_redirect (command 0 1 1 "c" "b") = 1 /\ input_filename (command 0 1 1 "c" "b") = "b")
  /\ (output_redirect (command 0 1 1 "c" "b") = 1
      /\ output_filename (command 0 1 1 "c" "b") = "c").
Proof.
  exact (parse_line_redirections_last_wins 100 "sort < a < b > c"
           (command 0 0 0 EmptyString EmptyString) (command 0 1 1 "c" "b")
           ["sort"] eq_refl).
Defined.





Lemma parse_tokens_dangling (pid : Z) (toks : list string) :
  forall (info : shell_info) (args : list string),
  dangling_operator toks = true ->
  exists f, parse_tokens pid toks info args = inl f.
Proof.
  induction toks as [|t rest IH1 IH2] using tokens_ind2; intros info args D;
    [discriminate|].
  cbn [dangling_operator] in D. unfold is_redirect_operator in D.
  cbn [parse_tokens]. token_cases t.
  1,2: destruct rest as [|name rest']; [eexists; reflexivity|];
       destruct (256 <=? strlen name); [eexists; reflexivity|];
       apply IH2; exact D.
  - apply IH1. exact D.
  - destruct (store_arg args (dec pid)); [eexists; reflexivity|]. apply IH1. exact D.
  - destruct (store_arg args t); [eexists; reflexivity|]. apply IH1. exact D.
Qed.

Lemma parse_tokens_dangling_null (pid : Z) (toks : list string) :
  forall (info : shell_info) (args : list string),
  dangling_operator toks = true ->
  Forall (fun t => strlen t < 256) toks ->
  (List.length args + List.length toks <= 512)%nat ->
  parse_tokens pid toks info args = inl NullDeref.
Proof.
  induction toks as [|t rest IH1 IH2] using tokens_ind2; intros info args D S L;
    [discriminate|].
  cbn [dangling_operator] in D. unfold is_redirect_operator in D.
  inversion S as [|x l St Sr]; subst. cbn [List.length] in L.
  cbn [parse_tokens]. token_cases t.
  1,2: destruct rest as [|name rest']; [reflexivity|];
       inversion Sr as [|y l' Sn Sr']; subst;
       destruct (Z.leb_spec 256 (strlen name)); [lia|];
       apply IH2; [exact D | exact Sr' | cbn [tl List.length] in *; lia].
  - apply IH1; [exact D | exact Sr | lia].
  - unfold store_arg.
    destruct (Z.leb_spec 512 (Z.of_nat (List.length args))); [lia|].
    apply IH1; [exact D | exact Sr | rewrite length_app; cbn; lia].
  - unfold store_arg.
    destruct (Z.leb_spec 512 (Z.of_nat (List.length args))); [lia|].
    apply IH1; [exact D | exact Sr | rewrite length_app; cbn; lia].
Qed.

(** X5.  A line whose last redirection operator in operator position is its
    last token, with no file name after it, never parses: [parse_line]
    faults.  When the line has at most 512 tokens, each shorter than 256
    bytes, the fault is the NULL that [strtok_r] returns, passed to
    [strcpy].  This holds whatever the command is, a comment line included,
    because the line is parsed before its first token is examined. *)
Theorem parse_line_trailing_operator_faults (pid : Z) (line : string)
  (info : shell_info) :
  dangling_operator (tl (tokens line)) = true ->
  (exists f, parse_line pid line info = inl f)
  /\ ((List.length (tokens line) <= 512)%nat ->
      Forall (fun t => strlen t < 256) (tl (tokens line)) ->
      parse_line pid line info = inl NullDeref).
Proof.
  rewrite parse_line_tokens. intros D.
  destruct (tokens line) as [|name rest]; [discriminate|]. cbn [tl] in *.
  split.
  - apply parse_tokens_dangling. exact D.
  - intros L S. apply parse_tokens_dangling_null; [exact D | exact S | cbn in *; lia].
Qed.

Lemma parse_line_trailing_operator_faults_witness :
  parse_line 100 "sort < in >" (command 0 0 0 EmptyString EmptyString)
  = inl NullDeref.
Proof.
  apply (proj2 (parse_line_trailing_operator_faults 100 "sort < in >"
                  (command 0 0 0 EmptyString EmptyString) eq_refl)).
  - cbn. lia.
  - repeat constructor.
Defined.

Example parse_line_comment_trailing_operator :
  parse_line 100 "# copy the file >" (command 0 0 0 EmptyString EmptyString)
  = inl NullDeref.
Proof. reflexivity. Qed.

(** ** Reading a line *)

Lemma break_at_first_delim (d : ascii) (s rest : string) :
  contains_char d s = false ->
  break_at d (s +++ String d rest) = (s, Some rest).
Proof.
  induction s as [|c s IH]; cbn [append break_at contains_char]; intros H.
  - rewrite Ascii.eqb_refl. reflexivity.
  - apply orb_false_iff in H. destruct H as [Hc Hs].
    rewrite Hc, (IH Hs). reflexivity.
Qed.

Lemma break_at_no_delim (d : ascii) (s : string) :
  contains_char d s = false ->
  break_at d s = (s, None).
Proof.
  induction s as [|c s IH]; cbn [break_at contains_char]; intros H; [reflexivity|].
  apply orb_false_iff in H. destruct H as [Hc Hs].
  rewrite Hc, (IH Hs). reflexivity.
Qed.

(** X6.  [get_input] prompts with [: ], flushes, and returns the line without
    its newline; an empty line is the exception: its newline is not removed,
    and the string returned is the newline itself, which is what
    [execute_cmd] recognises as a blank line.  A last line that has no
    newline is returned whole. *)
Theorem get_input_strips_newline (s : string) (p : process) :
  contains_char nl_char s = false ->
  get_input (Some (s +++ nl)) p =
    Ret (match s with EmptyString => nl | _ => s end)
        (log EvFflush (log (EvPrintf ": ") p))
  /\ get_input (Some s) p = Ret s (log EvFflush (log (EvPrintf ": ") p)).
Proof.
  intros H. rewrite !get_input_line. split; f_equal.
  - destruct s as [|c s]; [reflexivity|].
    cbn [append buffer_after_strtok]. cbn [contains_char] in H.
    pose proof H as H'. apply orb_false_iff in H'. destruct H' as [Hc _].
    rewrite Hc.
    change (String c (s +++ nl)) with (String c s +++ String nl_char EmptyString).
    rewrite (break_at_first_delim nl_char (String c s) EmptyString H). reflexivity.
  - destruct s as [|c s]; [reflexivity|].
    cbn [buffer_after_strtok]. cbn [contains_char] in H.
    pose proof H as H'. apply orb_false_iff in H'. destruct H' as [Hc _].
    rewrite Hc, (break_at_no_delim nl_char (String c s) H). reflexivity.
Qed.

Lemma get_input_strips_newline_witness :
  get_input (Some ("ls -l" +++ nl)) (shell_process 0 0 [])
  = Ret "ls -l" (log EvFflush (log (EvPrintf ": ") (shell_process 0 0 []))).
Proof.
  exact (proj1 (get_input_strips_newline "ls -l" (shell_process 0 0 []) eq_refl)).
Defined.

(** ** Running monadic code, continued *)

Lemma bind_ret_inv (A B : Type) (c : M A) (k : A -> M B) (p p' : process) (b : B) :
  bind c k p = Ret b p' ->
  exists a p1, c p = Ret a p1 /\ k a p1 = Ret b p'.
Proof.
  rewrite run_bind. destruct (c p) as [a p1| | |]; try discriminate.
  intros H. exists a, p1. split; [reflexivity | exact H].
Qed.

(** ** The reaping loop *)

Lemma last_default (A : Type) (x d d' : A) (l : list A) :
  last (x :: l) d = last (x :: l) d'.
Proof.
  revert x. induction l as [|y l IH]; intros x; [reflexivity|].
  change (last (y :: l) d = last (y :: l) d'). apply IH.
Qed.

Lemma last_cons (A : Type) (x d : A) (l : list A) : last (x :: l) d = last l x.
Proof.
  destruct l as [|y l]; [reflexivity|].
  change (last (y :: l) d = last (y :: l) x). apply last_default.
Qed.

(** X7.  The loop at the end of [execute_cmd] collects every child the kernel
    reports, in the order reported, until an answer is not positive: for each
    one it prints [background pid N is done: ] and the decoded status, and it
    leaves in [exit_status] the status of the last child collected (the old
    value when there was none).  It always returns, and touches nothing else
    of the shell. *)
Theorem reap_drains (fuel : nat) (info : shell_info) (p : process)
  (done rest : list (Z * Z)) :
  waits p = done ++ rest ->
  Forall (fun a => 0 < fst a) done ->
  closing_answer rest <= 0 ->
  (List.length (waits p) < fuel)%nat ->
  exists p',
    reap fuel info p =
      Ret (set_exit_status (last (map snd done) (exit_status info)) info) p'
    /\ trace p' =
         trace p ++ flat_map reap_report done
                 ++ [EvWaitpid (-1) WNOHANG (closing_answer rest)]
    /\ waits p' = tl rest
    /\ environment p' = environment p.
Proof.
  revert fuel info p. induction done as [|[corpse st] done IH];
    intros fuel info p W F C L.
  - destruct fuel as [|fuel]; [lia|]. cbn [app] in W.
    cbn [reap]. rewrite run_bind. unfold waitpid. rewrite W.
    destruct rest as [|[r s] rest]; cbn [closing_answer fst snd] in *.
    + eexists. split; [reflexivity|]. cbn [flat_map app map last].
      repeat split. exact W.
    + destruct (Z.ltb_spec 0 r) as [P|_]; [lia|].
      eexists. split; [reflexivity|]. repeat split.
  - destruct fuel as [|fuel]; [lia|].
    inversion F as [|x l Pc F']; subst. cbn [fst] in Pc.
    rewrite (reap_collects fuel info p corpse st (done ++ rest) W Pc).
    rewrite run_bind. unfold printf at 1. cbv beta iota.
    rewrite run_bind. unfold fflush_stdout at 1. cbv beta iota.
    rewrite run_bind, my_status_run.
    match goal with
    | |- context [reap fuel ?i ?q] =>
        destruct (IH fuel i q) as (p' & R & T & Wp & E)
    end.
    + reflexivity.
    + exact F'.
    + exact C.
    + rewrite W in L. cbn in *. lia.
    + exists p'. split; [|split; [|split]].
      * rewrite R. cbn [map]. rewrite last_cons. reflexivity.
      * rewrite T. cbn [flat_map reap_report fst snd]. trace_norm. reflexivity.
      * exact Wp.
      * rewrite E. reflexivity.
Qed.

Lemma reap_drains_witness :
  exists p',
    reap 4 (command 0 0 0 EmptyString EmptyString)
         (shell_process 0 0 [(11, 0); (12, 9); (0, 0)])
    = Ret (set_exit_status 9 (command 0 0 0 EmptyString EmptyString)) p'
    /\ waits p' = [].
Proof.
  destruct (reap_drains 4 (command 0 0 0 EmptyString EmptyString)
              (shell_process 0 0 [(11, 0); (12, 9); (0, 0)])
              [(11, 0); (12, 9)] [(0, 0)]) as (p' & R & _ & W & _).
  - reflexivity.
  - repeat constructor.
  - cbn. lia.
  - cbn. lia.
  - exists p'. split; [exact R | exact W].
Defined.

(** Whatever the kernel answers, the loop returns. *)
Lemma reap_returns (fuel : nat) (info : shell_info) (p : process) :
  (List.length (waits p) < fuel)%nat ->
  exists info' p',
    reap fuel info p = Ret info' p' /\ environment p' = environment p.
Proof.
  revert info p. induction fuel as [|fuel IH]; intros info p L; [lia|].
  cbn [reap]. rewrite run_bind. unfold waitpid.
  destruct (waits p) as [|[r st] ws] eqn:W; cbv beta iota; cbn [fst snd].
  - eexists; eexists. split; reflexivity.
  - destruct (0 <? r).
    + rewrite run_bind. unfold printf at 1. cbv beta iota.
      rewrite run_bind. unfold fflush_stdout at 1. cbv beta iota.
      rewrite run_bind, my_status_run.
      match goal with
      | |- context [reap fuel ?i ?q] =>
          destruct (IH i q) as (info' & p' & R & E)
      end.
      * cbn in *. lia.
      * exists info', p'. split; [exact R | rewrite E; reflexivity].
    + eexists; eexists. split; reflexivity.
Qed.

(** ** How a command can end *)

Lemma never_returns_exit (A : Type) (code : Z) : never_returns (@Sys.exit A code).
Proof. intros p a p'. discriminate. Qed.

Lemma never_returns_bind (A B : Type) (c : M A) (k : A -> M B) :
  (forall a, never_returns (k a)) -> never_returns (bind c k).
Proof.
  intros K p b p'. rewrite run_bind.
  destruct (c p) as [a p1| | |]; try discriminate. apply K.
Qed.

Lemma ends_well_bind (A B : Type) (file : string) (argv : list string)
  (c : M A) (k : A -> M B) :
  ends_well file argv c -> (forall a, ends_well file argv (k a)) ->
  ends_well file argv (bind c k).
Proof.
  intros C K p. rewrite run_bind. specialize (C p).
  destruct (c p) as [a p1| | |]; cbn [outcome_ok] in *; auto. apply K.
Qed.

Lemma ends_well_if (A : Type) (file : string) (argv : list string) (b : bool)
  (c1 c2 : M A) :
  ends_well file argv c1 -> ends_well file argv c2 ->
  ends_well file argv (if b then c1 else c2).
Proof. destruct b; auto. Qed.

Lemma ends_well_state_if (A : Type) (file : string) (argv : list string)
  (b : process -> bool) (c1 c2 : M A) :
  ends_well file argv c1 -> ends_well file argv c2 ->
  ends_well file argv (fun p => if b p then c1 p else c2 p).
Proof. intros C1 C2 p. destruct (b p); [apply C1 | apply C2]. Qed.

(** A library or system call other than [exit] and [execvp]: it returns. *)
Ltac call_ends :=
  intros p;
  cbv beta delta [ret Monad_M m_ret printf fflush_stdout perror write
                  getpid getenv_HOME chdir fork waitpid Sys.open dup2 close
                  sigaction];
  cbv beta iota;
  repeat match goal with
         | |- context [match ?x with _ => _ end] => destruct x
         end;
  exact I.

Lemma ends_well_ret (A : Type) (file : string) (argv : list string) (a : A) :
  ends_well file argv (ret a).
Proof. call_ends. Qed.

Lemma ends_well_printf (file : string) (argv : list string) (text : string) :
  ends_well file argv (printf text).
Proof. call_ends. Qed.

Lemma ends_well_fflush (file : string) (argv : list string) :
  ends_well file argv fflush_stdout.
Proof. call_ends. Qed.

Lemma ends_well_perror (file : string) (argv : list string) (text : string) :
  ends_well file argv (perror text).
Proof. call_ends. Qed.

Lemma ends_well_getpid (file : string) (argv : list string) :
  ends_well file argv getpid.
Proof. call_ends. Qed.

Lemma ends_well_getenv (file : string) (argv : list string) :
  ends_well file argv getenv_HOME.
Proof. call_ends. Qed.

Lemma ends_well_chdir (file : string) (argv : list string) (path : option string) :
  ends_well file argv (chdir path).
Proof. call_ends. Qed.

Lemma ends_well_fork (file : string) (argv : list string) :
  ends_well file argv fork.
Proof. call_ends. Qed.

Lemma ends_well_waitpid (file : string) (argv : list string) (pid status options : Z) :
  ends_well file argv (waitpid pid status options).
Proof. call_ends. Qed.

Lemma ends_well_open (file : string) (argv : list string) (path : string)
  (flags mode : Z) :
  ends_well file argv (Sys.open path flags mode).
Proof. call_ends. Qed.

Lemma ends_well_dup2 (file : string) (argv : list string) (oldfd newfd : Z) :
  ends_well file argv (dup2 oldfd newfd).
Proof. call_ends. Qed.

Lemma ends_well_close (file : string) (argv : list string) (fd : Z) :
  ends_well file argv (close fd).
Proof. call_ends. Qed.

Lemma ends_well_sigaction (file : string) (argv : list string) (signo : Z)
  (act : sigaction_t) :
  ends_well file argv (sigaction signo act).
Proof. call_ends. Qed.

Lemma ends_well_exit (A : Type) (file : string) (argv : list string) (code : Z) :
  code = 0 \/ code = 1 \/ code = 2 -> ends_well file argv (@Sys.exit A code).
Proof. intros H p. exact H. Qed.

Lemma ends_well_execvp (file : string) (argv : list string) :
  ends_well file argv (execvp file argv).
Proof.
  intros p. unfold execvp. destruct (k_exec_ok (kern p) file); cbn; auto.
Qed.

Create HintDb ends.

#[export] Hint Resolve ends_well_bind ends_well_if ends_well_state_if ends_well_ret
  ends_well_printf ends_well_fflush ends_well_perror ends_well_getpid
  ends_well_getenv ends_well_chdir ends_well_fork ends_well_waitpid
  ends_well_open ends_well_dup2 ends_well_close ends_well_sigaction
  ends_well_execvp : ends.

#[export] Hint Extern 1 (ends_well _ _ (Sys.exit _)) =>
  (apply ends_well_exit; auto) : ends.

Lemma ends_well_my_status (file : string) (argv : list string) (status : Z) :
  ends_well file argv (my_status status).
Proof. unfold my_status. auto 20 with ends. Qed.

Lemma ends_well_other_cmd (args : list string) (info : shell_info) :
  ends_well (hd EmptyString args) args (other_cmd args info).
Proof.
  pose proof (ends_well_my_status (hd EmptyString args) args).
  unfold other_cmd, custom_IG, output_redirection, input_redirection.
  auto 40 with ends.
Qed.

(** X9.  In the child, [other_cmd] never returns to the caller: when [fork]
    has returned 0 the run ends in the image of [args[0]] or in an [exit]
    with status 0, 1 or 2, so a child never goes on to read the shell's
    input. *)
Theorem other_cmd_child_never_returns (args : list string) (info : shell_info)
  (p : process) (fs : list Z) :
  forks p = 0 :: fs ->
  (exists p', other_cmd args info p = Exec (hd EmptyString args) args p')
  \/ (exists code p',
        other_cmd args info p = Exit code p'
        /\ (code = 0 \/ code = 1 \/ code = 2)).
Proof.
  intros F.
  pose proof (ends_well_other_cmd args info p) as W.
  assert (N : forall a p', other_cmd args info p <> Ret a p').
  { intros a p'. unfold other_cmd. rewrite run_bind. unfold fork. rewrite F.
    cbv beta iota. cbn [Z.eqb].
    apply never_returns_bind. intros _.
    repeat (apply never_returns_bind; intros _).
    apply never_returns_exit. }
  destruct (other_cmd args info p) as [a p'|code p'|file argv p'|f p'];
    cbn [outcome_ok] in W.
  - exfalso. exact (N a p' eq_refl).
  - right. exists code, p'. split; [reflexivity | exact W].
  - left. destruct W as [-> ->]. exists p'. reflexivity.
  - contradiction.
Qed.

Lemma other_cmd_child_never_returns_witness :
  (exists p', other_cmd ["ls"] (command 0 0 0 EmptyString EmptyString)
                        (shell_process 0 0 []) = Exec "ls" ["ls"] p')
  \/ (exists code p',
        other_cmd ["ls"] (command 0 0 0 EmptyString EmptyString)
                  (shell_process 0 0 []) = Exit code p'
        /\ (code = 0 \/ code = 1 \/ code = 2)).
Proof.
  exact (other_cmd_child_never_returns ["ls"] (command 0 0 0 EmptyString EmptyString)
           (shell_process 0 0 []) [] eq_refl).
Defined.

(** ** What a command leaves of the shell *)

Lemma keeps_bind (A B : Type) (c : M A) (k : A -> M B) :
  keeps_environment c -> (forall a, keeps_environment (k a)) ->
  keeps_environment (bind c k).
Proof.
  intros C K p b p' H. apply bind_ret_inv in H. destruct H as (a & p1 & H1 & H2).
  rewrite (K a p1 b p' H2). exact (C p a p1 H1).
Qed.

Lemma keeps_if (A : Type) (b : bool) (c1 c2 : M A) :
  keeps_environment c1 -> keeps_environment c2 ->
  keeps_environment (if b then c1 else c2).
Proof. destruct b; auto. Qed.

Lemma keeps_state_if (A : Type) (b : process -> bool) (c1 c2 : M A) :
  keeps_environment c1 -> keeps_environment c2 ->
  keeps_environment (fun p => if b p then c1 p else c2 p).
Proof. intros C1 C2 p a p'. destruct (b p); [apply C1 | apply C2]. Qed.

Lemma never_returns_keeps (A : Type) (c : M A) :
  never_returns c -> keeps_environment c.
Proof. intros N p a p' H. exfalso. exact (N p a p' H). Qed.

(** A call that changes neither the descriptors nor the dispositions. *)
Ltac call_keeps :=
  let H := fresh "H" in
  intros ? ? ? H;
  cbv beta delta [ret Monad_M m_ret printf fflush_stdout perror write
                  getpid getenv_HOME chdir fork waitpid raise] in H;
  cbv beta iota in H;
  repeat match type of H with
         | context [match ?x with _ => _ end] => destruct x
         end;
  inversion H; reflexivity.

Lemma keeps_ret (A : Type) (a : A) : keeps_environment (ret a).
Proof. call_keeps. Qed.

Lemma keeps_printf (text : string) : keeps_environment (printf text).
Proof. call_keeps. Qed.

Lemma keeps_fflush : keeps_environment fflush_stdout.
Proof. call_keeps. Qed.

Lemma keeps_getpid : keeps_environment getpid.
Proof. call_keeps. Qed.

Lemma keeps_getenv : keeps_environment getenv_HOME.
Proof. call_keeps. Qed.

Lemma keeps_chdir (path : option string) : keeps_environment (chdir path).
Proof. call_keeps. Qed.

Lemma keeps_fork : keeps_environment fork.
Proof. call_keeps. Qed.

Lemma keeps_waitpid (pid status options : Z) :
  keeps_environment (waitpid pid status options).
Proof. call_keeps. Qed.

Lemma keeps_raise (A : Type) (f : fault) : keeps_environment (@raise A f).
Proof. call_keeps. Qed.

Lemma keeps_lift (A : Type) (r : fault + A) : keeps_environment (lift r).
Proof. destruct r; [apply keeps_raise | apply keeps_ret]. Qed.

Create HintDb keeps.

#[export] Hint Resolve keeps_bind keeps_if keeps_state_if keeps_ret keeps_printf
  keeps_fflush keeps_getpid keeps_getenv keeps_chdir keeps_fork keeps_waitpid
  keeps_raise keeps_lift : keeps.

Lemma keeps_my_status (status : Z) : keeps_environment (my_status status).
Proof. unfold my_status. auto 20 with keeps. Qed.

Lemma keeps_other_cmd (args : list string) (info : shell_info) :
  keeps_environment (other_cmd args info).
Proof.
  pose proof keeps_my_status.
  unfold other_cmd. apply keeps_bind; [auto with keeps|]. intros spawnPid.
  apply keeps_if.
  - apply never_returns_keeps, never_returns_bind. intros _. apply never_returns_exit.
  - apply keeps_if.
    + apply never_returns_keeps.
      repeat (apply never_returns_bind; intros _). apply never_returns_exit.
    + auto 20 with keeps.
Qed.

Lemma keeps_reap (fuel : nat) (info : shell_info) : keeps_environment (reap fuel info).
Proof.
  pose proof keeps_my_status.
  revert info. induction fuel as [|fuel IH]; intros info; cbn [reap];
    auto 30 with keeps.
Qed.

Lemma execute_cmd_keeps_environment_lemma (args : list string) (info : shell_info)
  (p p' : process) (r : Z * shell_info) :
  execute_cmd args info p = Ret r p' ->
  environment p' = environment p.
Proof.
  revert p r p'. change (keeps_environment (execute_cmd args info)).
  pose proof keeps_my_status. pose proof keeps_other_cmd. pose proof keeps_reap.
  unfold execute_cmd, my_exit, my_cd.
  destruct args as [|arg0 rest]; [auto with keeps|].
  destruct (nth_error (arg0 :: rest) 1); apply keeps_bind; auto 30 with keeps;
    intros r; apply keeps_bind; auto with keeps; intros p; apply keeps_reap.
Qed.

Lemma environment_resources (p p' : process) :
  environment p' = environment p -> shell_resources p' = shell_resources p.
Proof.
  unfold environment, shell_resources. intros H. inversion H. reflexivity.
Qed.

(** X10.  A command that returns to the shell leaves the shell's own
    descriptor table, signal dispositions and pid as they were: the
    redirections and the changes of disposition [other_cmd] makes are made
    in the child only. *)
Theorem execute_cmd_keeps_resources (args : list string) (info : shell_info)
  (p p' : process) (r : Z * shell_info) :
  execute_cmd args info p = Ret r p' ->
  shell_resources p' = shell_resources p.
Proof.
  intros H. apply environment_resources.
  exact (execute_cmd_keeps_environment_lemma args info p p' r H).
Qed.

Lemma execute_cmd_keeps_resources_witness :
  shell_resources
    (final (execute_cmd ["sort"] (command 0 1 1 "out" "in")
                        (shell_process 0 4242 [(4242, 0); (0, 0)])))
  = shell_resources (shell_process 0 4242 [(4242, 0); (0, 0)]).
Proof.
  apply (execute_cmd_keeps_resources ["sort"] (command 0 1 1 "out" "in") _ _
           (1, command 0 1 1 "out" "in")).
  reflexivity.
Defined.

(** ** The built-in commands *)

Lemma set_exit_status_same (info : shell_info) :
  set_exit_status (exit_status info) info = info.
Proof. destruct info; reflexivity. Qed.

(** The reaping loop when no child has ended. *)
Lemma reap_idle (info : shell_info) (p : process) :
  fst (wait_answer p (exit_status info)) <= 0 ->
  exists p',
    (fun q => reap (S (List.length (waits q))) info q) p = Ret info p'
    /\ trace p' = trace p ++ [EvWaitpid (-1) WNOHANG
                                (fst (wait_answer p (exit_status info)))]
    /\ stop_background p' = stop_background p.
Proof.
  intros H. cbv beta.
  destruct (reap_stops (List.length (waits p)) info p H) as (p' & R & T & S).
  exists p'. rewrite set_exit_status_same in R. auto.
Qed.

Lemma execute_cmd_continuation (args : list string)
  (info info' : shell_info) (p p' : process) (status : Z) :
  execute_cmd args info p = Ret (status, info') p' ->
  (hd EmptyString args = "exit" /\ status = 0)
  \/ (hd EmptyString args <> "exit" /\ status = 1).
Proof.
  destruct args as [|arg0 rest]; [discriminate|]. unfold execute_cmd. intros H.
  apply bind_ret_inv in H. destruct H as (r & p1 & H1 & H2).
  apply bind_ret_inv in H2. destruct H2 as (info2 & p2 & _ & H3).
  inversion H3; subst status info2 p2. clear H3. cbn [hd].
  destruct (String.eqb_spec arg0 "exit") as [E|E].
  - left. split; [exact E|].
    apply bind_ret_inv in H1. destruct H1 as (s & q & X & Y).
    unfold my_exit in X. apply bind_ret_inv in X. destruct X as (? & ? & _ & X).
    apply bind_ret_inv in X. destruct X as (? & ? & _ & X).
    inversion X; subst. inversion Y. reflexivity.
  - right. split; [exact E|].
    destruct (String.eqb arg0 "cd");
      [|destruct (String.eqb arg0 "status");
        [|destruct (String.eqb arg0 nl || Ascii.eqb (first_char arg0) "#"%char)]].
    1,2,4: apply bind_ret_inv in H1; destruct H1 as (? & ? & _ & Y);
           inversion Y; reflexivity.
    inversion H1. reflexivity.
Qed.


(** X11.  [execute_cmd] returns 0, the value that ends the loop of
    [small_shell], exactly when the first argument is [exit]; for every other
    command that returns, it returns 1. *)
Theorem execute_cmd_stops_only_on_exit (args : list string)
  (info info' : shell_info) (p p' : process) (status : Z) :
  execute_cmd args info p = Ret (status, info') p' ->
  (hd EmptyString args = "exit" /\ status = 0)
  \/ (hd EmptyString args <> "exit" /\ status = 1).
Proof. apply execute_cmd_continuation. Qed.

Lemma execute_cmd_stops_only_on_exit_witness :
  (hd EmptyString ["exit"; "now"] = "exit" /\ 0 = 0)
  \/ (hd EmptyString ["exit"; "now"] <> "exit" /\ 0 = 1).
Proof.
  exact (execute_cmd_stops_only_on_exit ["exit"; "now"]
           (command 0 0 0 EmptyString EmptyString)
           (command 0 0 0 EmptyString EmptyString)
           (shell_process 0 0 [])
           (final (execute_cmd ["exit"; "now"] (command 0 0 0 EmptyString EmptyString)
                     (shell_process 0 0 [])))
           0 eq_refl).
Defined.




Lemma my_cd_run (args : list string) (p : process) :
  let target := match nth_error args 1 with
                | None => k_home (kern p)
                | Some dir => Some dir
                end in
  my_cd args p =
    if k_chdir_ok (kern p) target
    then Ret tt (log (EvChdir target 0) p)
    else Ret tt (log (EvPrintf "chdir() failed") (log (EvChdir target (-1)) p)).
Proof.
  unfold my_cd. destruct (nth_error args 1) as [dir|]; cbv zeta; run;
    match goal with
    | |- context [k_chdir_ok ?k ?t] => destruct (k_chdir_ok k t)
    end; reflexivity.
Qed.

(** X13.  [cd] changes to [args[1]], or to the value of [HOME] when there is
    no [args[1]]; later arguments are ignored.  When [chdir] fails the shell
    prints [chdir() failed], without newline and without flushing.  In both
    cases no process is created, [exit_status] keeps its value and the loop
    goes on. *)
Theorem execute_cmd_cd (rest : list string) (info : shell_info) (p : process) :
  fst (wait_answer p (exit_status info)) <= 0 ->
  let target := match rest with
                | [] => k_home (kern p)
                | dir :: _ => Some dir
                end in
  exists p',
    execute_cmd ("cd" :: rest) info p = Ret (1, info) p'
    /\ trace p' =
         trace p ++
         (if k_chdir_ok (kern p) target
          then [EvChdir target 0]
          else [EvChdir target (-1); EvPrintf "chdir() failed"])
         ++ [EvWaitpid (-1) WNOHANG (fst (wait_answer p (exit_status info)))].
Proof.
  intros H target.
  assert (E : target = match nth_error ("cd" :: rest) 1 with
                       | None => k_home (kern p)
                       | Some dir => Some dir
                       end) by (destruct rest; reflexivity).
  unfold execute_cmd.
  change (String.eqb "cd" "exit") with false.
  change (String.eqb "cd" "cd") with true. cbv beta iota.
  rewrite run_bind, run_bind.
  pose proof (my_cd_run ("cd" :: rest) p) as C. cbv zeta in C.
  rewrite <- E in C. rewrite C.
  destruct (k_chdir_ok (kern p) target); run;
    match goal with
    | |- context [reap _ info ?q] =>
        destruct (reap_idle info q H) as (p' & R & T & _)
    end; cbv beta in R; rewrite R;
    exists p'; (split; [reflexivity|]); rewrite T; trace_norm; reflexivity.
Qed.

Lemma execute_cmd_cd_witness :
  exists p',
    execute_cmd ["cd"; "/tmp"; "ignored"] (command 0 0 0 EmptyString EmptyString)
                (shell_process 0 0 [])
    = Ret (1, command 0 0 0 EmptyString EmptyString) p'.
Proof.
  destruct (execute_cmd_cd ["/tmp"; "ignored"]
              (command 0 0 0 EmptyString EmptyString) (shell_process 0 0 []))
    as (p' & R & _).
  - cbn. lia.
  - exists p'. exact R.
Defined.

Lemma execute_cmd_noop (arg0 : string) (rest : list string)
  (info : shell_info) (p : process) :
  arg0 = nl \/ first_char arg0 = "#"%char ->
  fst (wait_answer p (exit_status info)) <= 0 ->
  exists p',
    execute_cmd (arg0 :: rest) info p = Ret (1, info) p'
    /\ trace p' =
         trace p ++ [EvWaitpid (-1) WNOHANG (fst (wait_answer p (exit_status info)))].
Proof.
  intros B H.
  destruct (reap_idle info p H) as (p' & R & T & _). cbv beta in R.
  exists p'. split; [|exact T].
  unfold execute_cmd. destruct B as [->|B].
  - change (String.eqb nl "exit") with false.
    change (String.eqb nl "cd") with false.
    change (String.eqb nl "status") with false.
    change (String.eqb nl nl) with true. cbv beta iota. cbn [orb].
    rewrite !run_bind. run. rewrite R. reflexivity.
  - destruct arg0 as [|c s]; [discriminate|]. cbn [first_char] in B. subst c.
    assert (E1 : String.eqb (String "#" s) "exit" = false) by reflexivity.
    assert (E2 : String.eqb (String "#" s) "cd" = false) by reflexivity.
    assert (E3 : String.eqb (String "#" s) "status" = false) by reflexivity.
    assert (E4 : Ascii.eqb (first_char (String "#" s)) "#" = true) by reflexivity.
    rewrite E1, E2, E3, E4, orb_true_r.
    rewrite !run_bind. run. rewrite R. reflexivity.
Qed.


(** X14.  When no child has finished (the poll for finished children finds
    none), a command whose first argument is a lone newline (a blank line)
    or begins with [#] (a comment) does nothing: no process is created and
    nothing is printed, [*info] is unchanged and the loop goes on; only that
    one poll is made. *)
Theorem execute_cmd_blank_or_comment (arg0 : string) (rest : list string)
  (info : shell_info) (p : process) :
  arg0 = nl \/ first_char arg0 = "#"%char ->
  fst (wait_answer p (exit_status info)) <= 0 ->
  exists p',
    execute_cmd (arg0 :: rest) info p = Ret (1, info) p'
    /\ trace p' =
         trace p ++ [EvWaitpid (-1) WNOHANG (fst (wait_answer p (exit_status info)))].
Proof. apply execute_cmd_noop. Qed.

Lemma execute_cmd_blank_or_comment_witness :
  exists p',
    execute_cmd ["#ls"; "-l"] (command 1 0 0 EmptyString EmptyString)
                (shell_process 0 0 [])
    = Ret (1, command 1 0 0 EmptyString EmptyString) p'.
Proof.
  destruct (execute_cmd_blank_or_comment "#ls" ["-l"]
              (command 1 0 0 EmptyString EmptyString) (shell_process 0 0 []))
    as (p' & R & _).
  - right. reflexivity.
  - cbn. lia.
  - exists p'. exact R.
Defined.

(** ** A blank line in the loop *)

Lemma shell_loop_reset (input : list string) (info : shell_info) :
  shell_loop input (init_shell_info info) = shell_loop input info.
Proof. destruct input; reflexivity. Qed.

(** X15.  When no child has finished (the poll for finished children finds
    none) and no suspend signal arrives during the turn, an empty input line
    is skipped: apart from the prompt and that one poll, the loop goes on
    with the next line exactly as if the empty line had not been there, with
    [exit_status], the descriptor table, the signal dispositions and the pid
    unchanged. *)
Theorem shell_loop_blank_line (input : list string) (info : shell_info)
  (p : process) :
  fst (wait_answer p (exit_status info)) <= 0 ->
  exists p',
    shell_loop (nl :: input) info p = shell_loop input info p'
    /\ trace p' =
         trace p ++ [EvPrintf ": "; EvFflush;
                     EvWaitpid (-1) WNOHANG (fst (wait_answer p (exit_status info)))]
    /\ shell_resources p' = shell_resources p.
Proof.
  intros H.
  set (q := log EvFflush (log (EvPrintf ": ") p)).
  destruct (execute_cmd_noop nl [] (init_shell_info info) q
              (or_introl eq_refl) H) as (p' & R & T).
  exists p'. split; [|split].
  - rewrite shell_loop_turn.
    change (buffer_after_strtok nl_char nl) with nl.
    change (parse_line (pid p) nl (init_shell_info info))
      with (@inr fault _ (init_shell_info info, [nl])).
    cbv beta iota. rewrite run_bind. fold q. rewrite R.
    cbv beta iota. cbn [fst snd Z.eqb negb]. rewrite shell_loop_reset. reflexivity.
  - rewrite T. subst q. trace_norm. reflexivity.
  - rewrite (environment_resources q p'
               (execute_cmd_keeps_environment_lemma [nl] (init_shell_info info) q p' _ R)).
    reflexivity.
Qed.

Lemma shell_loop_blank_line_witness :
  exists p',
    shell_loop [nl; "exit" +++ nl] (command 0 0 0 EmptyString EmptyString)
               (shell_process 0 0 [])
    = shell_loop ["exit" +++ nl] (command 0 0 0 EmptyString EmptyString) p'.
Proof.
  destruct (shell_loop_blank_line ["exit" +++ nl]
              (command 0 0 0 EmptyString EmptyString) (shell_process 0 0 []))
    as (p' & R & _).
  - cbn. lia.
  - exists p'. exact R.
Defined.

(** ** The standard streams of the child, in general *)

Lemma redirected_from_refl (p : process) :
  get_fd (fds p) 0 <> None -> get_fd (fds p) 1 <> None -> redirected_from p p.
Proof. intros H0 H1. repeat split; auto. Qed.

Lemma input_step (b : bool) (filename : string) (p q : process) :
  files_available (kern p) ->
  redirected_from p q ->
  exists q',
    (if b then ret tt else input_redirection filename) q = Ret tt q'
    /\ redirected_from p q'
    /\ get_fd (fds q') 0 =
         (if b then get_fd (fds q) 0
          else Some {| of_path := filename; of_flags := O_RDONLY |})
    /\ get_fd (fds q') 1 = get_fd (fds q) 1.
Proof.
  intros [Ho Hd] (K & F0 & F1 & Fx). destruct b.
  - exists q. repeat split; auto.
  - exists (redirected filename O_RDONLY 0 0 q).
    assert (X : forall x, get_fd (fds (redirected filename O_RDONLY 0 0 q)) x =
                          if x =? 0
                          then Some {| of_path := filename; of_flags := O_RDONLY |}
                          else get_fd (fds q) x)
      by (intros x; exact (redirected_fds filename O_RDONLY 0 0%nat q x F0)).
    split; [|split; [|split]].
    + apply input_redirection_ok; [rewrite K; apply Ho | rewrite K; apply Hd | exact F0].
    + repeat split.
      * exact K.
      * rewrite X. discriminate.
      * rewrite X. exact F1.
      * intros x N0 N1. rewrite X.
        destruct (Z.eqb_spec x 0); [contradiction | auto].
    + rewrite X. reflexivity.
    + rewrite X. reflexivity.
Qed.

Lemma output_step (b : bool) (filename : string) (p q : process) :
  files_available (kern p) ->
  redirected_from p q ->
  exists q',
    (if b then ret tt else output_redirection filename) q = Ret tt q'
    /\ redirected_from p q'
    /\ get_fd (fds q') 1 =
         (if b then get_fd (fds q) 1
          else Some {| of_path := filename; of_flags := output_flags |})
    /\ get_fd (fds q') 0 = get_fd (fds q) 0.
Proof.
  intros [Ho Hd] (K & F0 & F1 & Fx). destruct b.
  - exists q. repeat split; auto.
  - exists (redirected filename output_flags 511 1 q).
    assert (X : forall x, get_fd (fds (redirected filename output_flags 511 1 q)) x =
                          if x =? 1
                          then Some {| of_path := filename; of_flags := output_flags |}
                          else get_fd (fds q) x)
      by (intros x; exact (redirected_fds filename output_flags 511 1%nat q x F1)).
    split; [|split; [|split]].
    + apply output_redirection_ok; [rewrite K; apply Ho | rewrite K; apply Hd | exact F1].
    + repeat split.
      * exact K.
      * rewrite X. exact F0.
      * rewrite X. discriminate.
      * intros x N0 N1. rewrite X.
        destruct (Z.eqb_spec x 1); [contradiction | auto].
    + rewrite X. reflexivity.
    + rewrite X. reflexivity.
Qed.

Lemma if_negb (A : Type) (b : bool) (x y : A) :
  (if negb b then x else y) = (if b then y else x).
Proof. destruct b; reflexivity. Qed.

Lemma child_finish_fds (args : list string) (info : shell_info) (p q : process) :
  files_available (kern p) ->
  redirected_from p q ->
  let o := child_finish args info q in
  (o = Exec (hd EmptyString args) args (final o) \/ o = Exit 2 (final o))
  /\ get_fd (fds (final o)) 0 =
       (if input_redirect info =? 0 then get_fd (fds q) 0
        else Some {| of_path := input_filename info; of_flags := O_RDONLY |})
  /\ get_fd (fds (final o)) 1 =
       (if output_redirect info =? 0 then get_fd (fds q) 1
        else Some {| of_path := output_filename info; of_flags := output_flags |})
  /\ (forall x, x <> 0 -> x <> 1 -> get_fd (fds (final o)) x = get_fd (fds p) x).
Proof.
  intros A R o. subst o. unfold child_finish. rewrite !if_negb.
  destruct (input_step (input_redirect info =? 0) (input_filename info) p q A R)
    as (q1 & R1 & I1 & G10 & G11).
  destruct (output_step (output_redirect info =? 0) (output_filename info) p q1 A I1)
    as (q2 & R2 & I2 & G21 & G20).
  rewrite run_bind, R1. cbv beta iota. rewrite run_bind, R2. cbv beta iota.
  destruct I2 as (_ & _ & _ & Fx).
  assert (E0 : get_fd (fds q2) 0 =
               (if input_redirect info =? 0 then get_fd (fds q) 0
                else Some {| of_path := input_filename info; of_flags := O_RDONLY |}))
    by (rewrite G20, G10; reflexivity).
  assert (E1 : get_fd (fds q2) 1 =
               (if output_redirect info =? 0 then get_fd (fds q) 1
                else Some {| of_path := output_filename info;
                             of_flags := output_flags |})).
  { rewrite G21. destruct (output_redirect info =? 0); [exact G11 | reflexivity]. }
  run. destruct (k_exec_ok (kern q2) (hd EmptyString args)); cbn [final]; proj; auto.
Qed.

(** X16.  What the child has on its standard streams when it calls [execvp],
    when the standard descriptors are open at the fork and the kernel lets
    every [open] and [dup2] through.  Descriptor 0 is the explicit input
    file opened read-only if there is one, else the null device if the
    command is effectively background, else what the shell had; descriptor 1
    is the explicit output file opened write-only, created and truncated, if
    there is one, else the null device if the command is effectively
    background, else what the shell had.  No other descriptor changes. *)
Theorem child_standard_streams (args : list string) (info : shell_info)
  (p : process) (fs : list Z) :
  forks p = 0 :: fs ->
  files_available (kern p) ->
  get_fd (fds p) 0 <> None ->
  get_fd (fds p) 1 <> None ->
  let o := other_cmd args info p in
  (o = Exec (hd EmptyString args) args (final o) \/ o = Exit 2 (final o))
  /\ get_fd (fds (final o)) 0 = child_stdin info p
  /\ get_fd (fds (final o)) 1 = child_stdout info p
  /\ (forall x, x <> 0 -> x <> 1 -> get_fd (fds (final o)) x = get_fd (fds p) x).
Proof.
  intros F A F0 F1 o. subst o. unfold child_stdin, child_stdout. rewrite !if_negb.
  destruct (run_in_background info p) eqn:B.
  - rewrite (other_cmd_child_background args info p fs F B).
    set (q := log EvFflush (log (EvPrintf (announcement (pid p))) (child_start fs p))).
    assert (R : redirected_from p q) by (repeat split; assumption).
    destruct (output_step (negb (output_redirect info =? 0)) "/dev/null" p q A R)
      as (q1 & R1 & I1 & G11 & G10).
    destruct (input_step (negb (input_redirect info =? 0)) "/dev/null" p q1 A I1)
      as (q2 & R2 & I2 & G20 & G21).
    rewrite run_bind, R1. cbv beta iota. rewrite run_bind, R2. cbv beta iota.
    destruct (child_finish_fds args info p q2 A I2) as (O & E0 & E1 & Ex).
    split; [exact O|]. split; [|split; [|exact Ex]].
    + rewrite E0, G20, G10.
      destruct (input_redirect info =? 0); reflexivity.
    + rewrite E1, G21, G11.
      destruct (output_redirect info =? 0); reflexivity.
  - rewrite (other_cmd_child_foreground args info p fs F B).
    rewrite run_bind.
    change (sigaction SIGINT default_once_action (child_start fs p))
      with (@Ret unit tt (log (EvSigaction SIGINT default_once_action)
                            (with_sigint default_once_action (child_start fs p)))).
    cbv beta iota.
    set (q := log (EvSigaction SIGINT default_once_action)
                (with_sigint default_once_action (child_start fs p))).
    assert (R : redirected_from p q) by (repeat split; assumption).
    destruct (child_finish_fds args info p q A R) as (O & E0 & E1 & Ex).
    split; [exact O|]. split; [exact E0|]. split; [exact E1 | exact Ex].
Qed.

Lemma child_standard_streams_witness :
  let o := other_cmd ["sort"] (command 1 1 0 "out" EmptyString)
                     (shell_process 0 0 []) in
  get_fd (fds (final o)) 0 = Some null_in
  /\ get_fd (fds (final o)) 1 = Some {| of_path := "out"; of_flags := output_flags |}.
Proof.
  intros o. subst o.
  destruct (child_standard_streams ["sort"] (command 1 1 0 "out" EmptyString)
              (shell_process 0 0 []) [] eq_refl) as (_ & A & B & _).
  - split; reflexivity.
  - cbn. discriminate.
  - cbn. discriminate.
  - split; [exact A | exact B].
Defined.

(** ** Signal dispositions *)

Lemma keeps_dispositions_bind (A B : Type) (c : M A) (k : A -> M B) :
  keeps_dispositions c -> (forall a, keeps_dispositions (k a)) ->
  keeps_dispositions (bind c k).
Proof.
  intros C K p. rewrite run_bind. specialize (C p).
  destruct (c p) as [a p1| | |]; cbn [final] in *; auto.
  destruct (K a p1) as [K1 K2]. destruct C as [C1 C2].
  rewrite K1, K2. auto.
Qed.

Lemma keeps_dispositions_if (A : Type) (b : bool) (c1 c2 : M A) :
  keeps_dispositions c1 -> keeps_dispositions c2 ->
  keeps_dispositions (if b then c1 else c2).
Proof. destruct b; auto. Qed.

(** A call other than [sigaction]. *)
Ltac call_dispositions :=
  intros ?;
  cbv beta delta [ret Monad_M m_ret printf fflush_stdout perror write Sys.exit
                  getpid getenv_HOME chdir fork waitpid Sys.open dup2 close
                  execvp];
  cbv beta iota;
  repeat match goal with
         | |- context [match ?x with _ => _ end] => destruct x
         end;
  split; reflexivity.

Lemma keeps_dispositions_ret (A : Type) (a : A) : keeps_dispositions (ret a).
Proof. call_dispositions. Qed.

Lemma keeps_dispositions_perror (text : string) : keeps_dispositions (perror text).
Proof. call_dispositions. Qed.

Lemma keeps_dispositions_exit (A : Type) (code : Z) :
  keeps_dispositions (@Sys.exit A code).
Proof. call_dispositions. Qed.

Lemma keeps_dispositions_open (path : string) (flags mode : Z) :
  keeps_dispositions (Sys.open path flags mode).
Proof. call_dispositions. Qed.

Lemma keeps_dispositions_dup2 (oldfd newfd : Z) : keeps_dispositions (dup2 oldfd newfd).
Proof. call_dispositions. Qed.

Lemma keeps_dispositions_close (fd : Z) : keeps_dispositions (close fd).
Proof. call_dispositions. Qed.

Lemma keeps_dispositions_execvp (file : string) (argv : list string) :
  keeps_dispositions (execvp file argv).
Proof. call_dispositions. Qed.

Create HintDb dispositions.

#[export] Hint Resolve keeps_dispositions_bind keeps_dispositions_if
  keeps_dispositions_ret keeps_dispositions_perror keeps_dispositions_exit
  keeps_dispositions_open keeps_dispositions_dup2 keeps_dispositions_close
  keeps_dispositions_execvp : dispositions.

Lemma keeps_dispositions_output_redirection (filename : string) :
  keeps_dispositions (output_redirection filename).
Proof. unfold output_redirection. auto 20 with dispositions. Qed.

Lemma keeps_dispositions_input_redirection (filename : string) :
  keeps_dispositions (input_redirection filename).
Proof. unfold input_redirection. auto 20 with dispositions. Qed.

#[export] Hint Resolve keeps_dispositions_output_redirection
  keeps_dispositions_input_redirection : dispositions.

Lemma keeps_dispositions_child_finish (args : list string) (info : shell_info) :
  keeps_dispositions (child_finish args info).
Proof. unfold child_finish. auto 20 with dispositions. Qed.

(** X17.  Whatever happens to its redirections, the child ends (in the new
    image or in [exit]) with SIGTSTP ignored; with SIGINT reset to the
    default action, once, if the command is effectively foreground; and with
    the disposition of SIGINT it inherited from the shell if the command is
    effectively background. *)
Theorem child_dispositions (args : list string) (info : shell_info)
  (p : process) (fs : list Z) :
  forks p = 0 :: fs ->
  let q := final (other_cmd args info p) in
  sigtstp_action q = ignore_action
  /\ sigint_action q =
       if run_in_background info p then sigint_action p else default_once_action.
Proof.
  intros F q. subst q. destruct (run_in_background info p) eqn:B.
  - rewrite (other_cmd_child_background args info p fs F B).
    match goal with
    | |- context [final (?c ?q)] =>
        assert (K : keeps_dispositions c);
        [|destruct (K q) as [K1 K2]; rewrite K1, K2; split; reflexivity]
    end.
    pose proof (keeps_dispositions_child_finish args info).
    auto 20 with dispositions.
  - rewrite (other_cmd_child_foreground args info p fs F B).
    rewrite run_bind.
    change (sigaction SIGINT default_once_action (child_start fs p))
      with (@Ret unit tt (log (EvSigaction SIGINT default_once_action)
                            (with_sigint default_once_action (child_start fs p)))).
    cbv beta iota.
    destruct (keeps_dispositions_child_finish args info
                (log (EvSigaction SIGINT default_once_action)
                   (with_sigint default_once_action (child_start fs p))))
      as [K1 K2].
    rewrite K1, K2. split; reflexivity.
Qed.

Lemma child_dispositions_witness :
  let q := final (other_cmd ["sleep"; "5"] (command 1 0 0 EmptyString EmptyString)
                            (shell_process 0 0 [])) in
  sigtstp_action q = ignore_action /\ sigint_action q = ignore_action.
Proof.
  exact (child_dispositions ["sleep"; "5"] (command 1 0 0 EmptyString EmptyString)
           (shell_process 0 0 []) [] eq_refl).
Defined.

(** X18.  The suspend signal and the launcher together: after one delivery
    to a shell whose flag is 0 no command is run in the background; after one
    delivery to a shell whose flag is set, a command is run in the
    background exactly when its own flag is set; and two deliveries leave the
    decision as it was. *)
Theorem handle_SIG_gates_background (signo : Z) (info : shell_info) (p : process) :
  let p1 := final (handle_SIG signo p) in
  let p2 := final (handle_SIG signo p1) in
  (stop_background p = 0 -> run_in_background info p1 = false)
  /\ (stop_background p <> 0 ->
      run_in_background info p1 = negb (background info =? 0))
  /\ run_in_background info p2 = run_in_background info p.
Proof.
  intros p1 p2. subst p2 p1. unfold run_in_background.
  destruct (Z.eq_dec (stop_background p) 0) as [E|E].
  - rewrite (handle_SIG_off signo p E). cbn [final].
    rewrite handle_SIG_on by (cbn; lia). cbn [final].
    cbn [stop_background with_stop_background]. rewrite E.
    split; [intros _; apply andb_false_r|].
    split; [intros N; contradiction | reflexivity].
  - rewrite (handle_SIG_on signo p E). cbn [final].
    rewrite handle_SIG_off by reflexivity. cbn [final].
    cbn [stop_background with_stop_background].
    destruct (Z.eqb_spec (stop_background p) 0) as [E'|_]; [contradiction|].
    split; [intros N; contradiction|].
    split; [intros _; apply andb_true_r|].
    cbn [Z.eqb]. rewrite andb_false_r. reflexivity.
Qed.

Lemma handle_SIG_gates_background_witness :
  run_in_background (command 1 0 0 EmptyString EmptyString)
    (final (handle_SIG SIGTSTP (shell_process 0 0 []))) = false.
Proof.
  exact (proj1 (handle_SIG_gates_background SIGTSTP
                  (command 1 0 0 EmptyString EmptyString) (shell_process 0 0 []))
               eq_refl).
Defined.

(** ** Failures and reports of the launcher *)

(** X19.  In the child of a command with both redirections, the input file
    is opened first: when it cannot be opened the child prints its
    diagnostic and ends with status 1 without having opened, created or
    truncated the output file, and without calling [execvp]. *)
Theorem child_missing_input_keeps_output (args : list string) (info : shell_info)
  (p : process) (fs : list Z) :
  forks p = 0 :: fs ->
  input_redirect info <> 0 ->
  output_redirect info <> 0 ->
  k_open_ok (kern p) (input_filename info) O_RDONLY = false ->
  exists p',
    other_cmd args info p = Exit 1 p'
    /\ events_since p p' =
         [EvFork 0; EvSigaction SIGTSTP ignore_action]
         ++ (if run_in_background info p
             then [EvPrintf (announcement (pid p)); EvFflush]
             else [EvSigaction SIGINT default_once_action])
         ++ [EvOpen (input_filename info) O_RDONLY 0 (-1);
             EvPerror ("Input file could not be opened " +++ nl);
             EvExit 1].
Proof.
  intros F I O K.
  assert (EI : (input_redirect info =? 0) = false) by (apply Z.eqb_neq; exact I).
  assert (EO : (output_redirect info =? 0) = false) by (apply Z.eqb_neq; exact O).
  destruct (run_in_background info p) eqn:B.
  - rewrite (other_cmd_child_background args info p fs F B).
    rewrite EI, EO. cbn [negb]. unfold child_finish. rewrite EI. cbn [negb].
    set (q := log EvFflush (log (EvPrintf (announcement (pid p))) (child_start fs p))).
    rewrite run_bind. cbv beta iota delta [ret Monad_M m_ret].
    rewrite run_bind. cbv beta iota delta [ret Monad_M m_ret].
    rewrite run_bind, (input_redirection_open_fails (input_filename info) q K).
    eexists. split; [reflexivity|]. subst q. unfold child_start. since.
  - rewrite (other_cmd_child_foreground args info p fs F B).
    unfold child_finish. rewrite EI. cbn [negb].
    rewrite run_bind.
    change (sigaction SIGINT default_once_action (child_start fs p))
      with (@Ret unit tt (log (EvSigaction SIGINT default_once_action)
                            (with_sigint default_once_action (child_start fs p)))).
    cbv beta iota.
    set (q := log (EvSigaction SIGINT default_once_action)
                (with_sigint default_once_action (child_start fs p))).
    rewrite run_bind, (input_redirection_open_fails (input_filename info) q K).
    eexists. split; [reflexivity|]. subst q. unfold child_start. since.
Qed.

Lemma child_missing_input_keeps_output_witness :
  exists p',
    other_cmd ["sort"] (command 0 1 1 "out" "missing")
      (with_forks [0] (with_stop_background 0
         {| stop_background := 0; pid := 4242;
            fds := [Some tty; Some tty; Some tty];
            sigint_action := ignore_action; sigtstp_action := handler_action;
            forks := []; waits := [];
            kern := {| k_open_ok := fun _ flags => negb (flags =? O_RDONLY);
                       k_dup2_ok := fun _ _ => true;
                       k_exec_ok := fun _ => true;
                       k_chdir_ok := fun _ => true;
                       k_home := None |};
            trace := [] |}))
    = Exit 1 p'.
Proof.
  match goal with
  | |- exists p', other_cmd ?a ?i ?p = _ =>
      destruct (child_missing_input_keeps_output a i p [] eq_refl) as (p' & R & _)
  end.
  - cbn. lia.
  - cbn. lia.
  - reflexivity.
  - exists p'. exact R.
Defined.

Lemma wait_status_zero (t : termination) :
  reportable t ->
  (wait_status t =? 0) = match t with
                         | Exited code => code =? 0
                         | Signaled _ _ => false
                         end.
Proof.
  destruct t as [code|sig core]; cbn [reportable]; intros R.
  - destruct (wait_status_exited code R) as [_ E].
    destruct (Z.eqb_spec code 0) as [C|C].
    + subst code. reflexivity.
    + apply Z.eqb_neq. intros Z0. rewrite Z0 in E. apply C. rewrite <- E. reflexivity.
  - destruct (wait_status_signaled sig core R) as [_ E].
    apply Z.eqb_neq. intros Z0. rewrite Z0 in E. cbn in E. lia.
Qed.

Lemma status_text_termination (t : termination) :
  reportable t ->
  status_text (wait_status t) =
    match t with
    | Exited code => "exit value " +++ dec code +++ " " +++ nl
    | Signaled sig _ => "terminated by signal " +++ dec sig +++ " " +++ nl
    end.
Proof.
  destruct t as [code|sig core]; cbn [reportable]; intros R; unfold status_text.
  - destruct (wait_status_exited code R) as [E1 E2]. rewrite E1, E2. reflexivity.
  - destruct (wait_status_signaled sig core R) as [E1 E2]. rewrite E1, E2. reflexivity.
Qed.

(** X20.  When the blocking wait of a foreground command collects its child,
    the shell stores the child's status in [exit_status] and reports at
    once how the child ended, unless it exited with code 0: [exit value N]
    for an exit with a code other than 0 (2 when the program could not be
    started), [terminated by signal N] for a signal. *)
Theorem foreground_end_reported (args : list string) (info : shell_info)
  (p : process) (child : Z) (fs : list Z) (t : termination) (ws : list (Z * Z)) :
  forks p = child :: fs ->
  0 < child ->
  run_in_background info p = false ->
  waits p = (child, wait_status t) :: ws ->
  reportable t ->
  other_cmd args info p
    = Ret (set_exit_status (wait_status t) info) (final (other_cmd args info p))
  /\ events_since p (final (other_cmd args info p)) =
       [EvFork child; EvWaitpid child 0 child] ++ foreground_report t
  /\ waits (final (other_cmd args info p)) = ws.
Proof.
  intros F C B W R.
  assert (N1 : child <> -1) by lia. assert (N0 : child <> 0) by lia.
  rewrite (other_cmd_parent_foreground args info p child fs F N1 N0 B).
  rewrite run_bind. unfold waitpid.
  change (waits (parent_start child fs p)) with (waits p). rewrite W.
  cbv beta iota. cbn [fst snd].
  destruct (Z.ltb_spec 0 child) as [_|X]; [|lia].
  rewrite run_bind, (wait_status_zero t R).
  destruct t as [code|sig core]; cbn [foreground_report].
  - destruct (code =? 0) eqn:E; cbn [negb].
    + run. cbn [final]. repeat split. unfold parent_start. since.
    + rewrite my_status_run, (status_text_termination (Exited code) R).
      run. cbn [final]. repeat split. unfold parent_start. since.
  - cbn [negb].
    rewrite my_status_run, (status_text_termination (Signaled sig core) R).
    run. cbn [final]. repeat split. unfold parent_start. since.
Qed.

Lemma foreground_end_reported_witness :
  events_since (shell_process 0 4242 [(4242, 512)])
    (final (other_cmd ["nosuchprogram"] (command 0 0 0 EmptyString EmptyString)
                      (shell_process 0 4242 [(4242, 512)])))
  = [EvFork 4242; EvWaitpid 4242 0 4242;
     EvPrintf ("exit value 2 " +++ nl); EvFflush].
Proof.
  assert (R : reportable (Exited 2)) by (cbn; lia).
  exact (proj1 (proj2 (foreground_end_reported ["nosuchprogram"]
                         (command 0 0 0 EmptyString EmptyString)
                         (shell_process 0 4242 [(4242, 512)]) 4242 [] (Exited 2) []
                         eq_refl eq_refl eq_refl eq_refl R))).
Defined.

(** X21.  A background child that has already ended when the parent polls it
    right after the fork is collected there, silently: its status is stored
    in [exit_status], nothing is printed, and since the kernel reports a
    child once, the reaping loop will never print that it is done.  When the
    poll finds nothing, [exit_status] keeps its value. *)
Theorem background_poll (args : list string) (info : shell_info)
  (p : process) (child : Z) (fs : list Z) (r status : Z) (ws : list (Z * Z)) :
  forks p = child :: fs ->
  0 < child ->
  run_in_background info p = true ->
  waits p = (r, status) :: ws ->
  exists info' p',
    other_cmd args info p = Ret info' p'
    /\ exit_status info' = (if 0 <? r then status else exit_status info)
    /\ events_since p p' = [EvFork child; EvWaitpid child WNOHANG r]
    /\ waits p' = ws.
Proof.
  intros F C B W.
  assert (N1 : child <> -1) by lia. assert (N0 : child <> 0) by lia.
  rewrite (other_cmd_parent_background args info p child fs F N1 N0 B).
  rewrite run_bind. unfold waitpid.
  change (waits (parent_start child fs p)) with (waits p). rewrite W.
  run. eexists; eexists. split; [reflexivity|].
  split; [reflexivity|]. split; [unfold parent_start; since | reflexivity].
Qed.

Lemma background_poll_witness :
  exists info' p',
    other_cmd ["true"] (command 1 0 0 EmptyString EmptyString)
              (shell_process 0 4242 [(4242, 256)]) = Ret info' p'
    /\ exit_status info' = 256
    /\ waits p' = [].
Proof.
  destruct (background_poll ["true"] (command 1 0 0 EmptyString EmptyString)
              (shell_process 0 4242 [(4242, 256)]) 4242 [] 4242 256 []
              eq_refl eq_refl eq_refl eq_refl)
    as (info' & p' & R & E & _ & W).
  exists info', p'. split; [exact R|]. split; [exact E | exact W].
Defined.

(** ** The loop of [small_shell] *)

Lemma keeps_get_input (incoming : option string) :
  keeps_environment (get_input incoming).
Proof. unfold get_input. destruct incoming; auto 20 with keeps. Qed.

Lemma keeps_execute_cmd (args : list string) (info : shell_info) :
  keeps_environment (execute_cmd args info).
Proof. intros p r p'. apply execute_cmd_keeps_environment_lemma. Qed.

Lemma keeps_shell_loop (input : list string) (info : shell_info) :
  keeps_environment (shell_loop input info).
Proof.
  revert info. pose proof keeps_get_input. pose proof keeps_execute_cmd.
  induction input as [|incoming input IH]; intros info; cbn [shell_loop];
    auto 30 with keeps.
Qed.

(** X22.  [shell_loop] returns only after a line whose first token is
    [exit]: if it returns, the input holds such a line and no line before it
    is one.  In particular it never returns at the end of the input. *)
Theorem shell_loop_returns_only_on_exit (input : list string) :
  forall (info : shell_info) (p p' : process),
  shell_loop input info p = Ret tt p' ->
  exists before incoming after,
    input = before ++ incoming :: after
    /\ command_name incoming = "exit"
    /\ Forall (fun l => command_name l <> "exit") before.
Proof.
  induction input as [|incoming input IH]; intros info p p' H.
  - cbn [shell_loop] in H. apply bind_ret_inv in H.
    destruct H as (? & ? & H & _). unfold get_input in H.
    apply bind_ret_inv in H. destruct H as (? & ? & _ & H).
    apply bind_ret_inv in H. destruct H as (? & ? & _ & H). discriminate.
  - rewrite shell_loop_turn in H.
    destruct (parse_line (pid p) (buffer_after_strtok nl_char incoming)
                         (init_shell_info info)) as [f|[info1 args]] eqn:P;
      [discriminate|].
    apply bind_ret_inv in H. destruct H as ([status info2] & p1 & X & K).
    destruct (parse_line_args _ _ _ _ _ P) as (name & toks & T & A).
    assert (N : command_name incoming = hd EmptyString args)
      by (unfold command_name; rewrite T, A; reflexivity).
    destruct (execute_cmd_continuation args info1 info2 _ p1 status X)
      as [[E S]|[E S]]; subst status; cbn [fst snd Z.eqb negb] in K.
    + exists [], incoming, input. split; [reflexivity|].
      split; [rewrite N; exact E | constructor].
    + destruct (IH info2 p1 p' K) as (before & l & after & I & C & B).
      exists (incoming :: before), l, after.
      split; [rewrite I; reflexivity|]. split; [exact C|].
      constructor; [rewrite N; exact E | exact B].
Qed.

Lemma shell_loop_returns_only_on_exit_witness :
  exists before incoming after,
    ["# a comment" +++ nl; nl; " exit" +++ nl; "ls" +++ nl]
      = before ++ incoming :: after
    /\ command_name incoming = "exit"
    /\ Forall (fun l => command_name l <> "exit") before.
Proof.
  assert (H : exists p',
            shell_loop ["# a comment" +++ nl; nl; " exit" +++ nl; "ls" +++ nl]
              (command 0 0 0 EmptyString EmptyString) (shell_process 0 0 [])
            = Ret tt p') by (vm_compute; eexists; reflexivity).
  destruct H as (p' & H).
  exact (shell_loop_returns_only_on_exit _ _ _ _ H).
Defined.

(** X23.  When [small_shell] returns, the shell still ignores SIGINT and
    still handles SIGTSTP with [handle_SIG], as installed at start-up, and
    its descriptor table and pid are those it started with: no command run
    in between has changed them in the shell itself. *)
Theorem small_shell_resources (stack : shell_info) (input : list string)
  (p p' : process) :
  small_shell stack input p = Ret tt p' ->
  sigint_action p' = ignore_action
  /\ sigtstp_action p' = handler_action
  /\ fds p' = fds p
  /\ pid p' = pid p.
Proof.
  unfold small_shell. intros H.
  apply bind_ret_inv in H. destruct H as ([] & p1 & H1 & H).
  apply bind_ret_inv in H. destruct H as ([] & p2 & H2 & H).
  apply bind_ret_inv in H. destruct H as ([] & p3 & H3 & H).
  apply bind_ret_inv in H. destruct H as ([] & p4 & H4 & H).
  apply keeps_shell_loop in H.
  inversion H1; subst p1. inversion H2; subst p2.
  inversion H3; subst p3. inversion H4; subst p4. clear H1 H2 H3 H4.
  unfold environment in H. cbn in H. inversion H. repeat split; assumption.
Qed.

Lemma small_shell_resources_witness :
  exists p',
    small_shell (stack_with 7) ["exit" +++ nl]
      (with_sigint sigaction_zero
         (with_sigtstp sigaction_zero (shell_process 0 0 []))) = Ret tt p'
    /\ sigint_action p' = ignore_action.
Proof.
  assert (H : exists p',
            small_shell (stack_with 7) ["exit" +++ nl]
              (with_sigint sigaction_zero
                 (with_sigtstp sigaction_zero (shell_process 0 0 []))) = Ret tt p')
    by (vm_compute; eexists; reflexivity).
  destruct H as (p' & H). exists p'. split; [exact H|].
  exact (proj1 (small_shell_resources _ _ _ _ H)).
Defined.

(** ** Arguments are words *)

Lemma contains_char_append (c : ascii) (a b : string) :
  contains_char c (a +++ b) = contains_char c a || contains_char c b.
Proof.
  induction a as [|x a IH]; cbn [append contains_char]; [reflexivity|].
  rewrite IH, orb_assoc. reflexivity.
Qed.

Lemma words_are_words (s cur : string) :
  contains_char sp_char cur = false ->
  Forall is_word (words sp_char cur s).
Proof.
  revert cur. induction s as [|c s IH]; intros cur H; cbn [words].
  - destruct cur; constructor; [|constructor]. split; [discriminate | exact H].
  - destruct (Ascii.eqb c sp_char) eqn:E.
    + destruct cur; [apply IH; reflexivity|].
      constructor; [split; [discriminate | exact H] | apply IH; reflexivity].
    + apply IH. rewrite contains_char_append, H. cbn [contains_char orb].
      rewrite E. reflexivity.
Qed.

Lemma tokens_are_words (line : string) : Forall is_word (tokens line).
Proof. apply words_are_words. reflexivity. Qed.

Lemma uint_digits_no_space (d : Decimal.uint) :
  contains_char sp_char (NilEmpty.string_of_uint d) = false.
Proof. induction d; cbn [NilEmpty.string_of_uint contains_char]; auto. Qed.

Lemma uint_is_word (d : Decimal.uint) : is_word (NilZero.string_of_uint d).
Proof.
  destruct d; (split; [discriminate|]); try reflexivity;
    match goal with
    | |- contains_char _ (NilZero.string_of_uint ?u) = false =>
        change (contains_char sp_char (NilEmpty.string_of_uint u) = false);
        apply uint_digits_no_space
    end.
Qed.

Lemma dec_is_word (n : Z) : is_word (dec n).
Proof.
  unfold dec, NilZero.string_of_int.
  destruct (Z.to_int n) as [d|d]; [apply uint_is_word|].
  destruct (uint_is_word d) as [_ H].
  split; [discriminate|]. cbn [contains_char]. rewrite H. reflexivity.
Qed.

Lemma argument_tokens_are_words (pid : Z) (toks : list string) :
  Forall is_word toks -> Forall is_word (argument_tokens pid toks).
Proof.
  induction toks as [|t rest IH1 IH2] using tokens_ind2; intros F; [constructor|].
  inversion F as [|x l Wt Wr]; subst. cbn [argument_tokens].
  destruct (is_redirect_operator t).
  - destruct rest as [|n rest']; [constructor|].
    apply IH2. inversion Wr; assumption.
  - destruct (String.eqb t "&"); [apply IH1; exact Wr|].
    constructor; [|apply IH1; exact Wr].
    destruct (String.eqb t "$$"); [apply dec_is_word | exact Wt].
Qed.

(** X24.  Every argument [parse_line] stores is a word: it is not empty and
    it holds no space.  There is no quoting: a quoted string with a space in
    it is stored as several arguments, quotes included. *)
Theorem parse_line_arguments_are_words (pid : Z) (line : string)
  (info info' : shell_info) (args : list string) :
  parse_line pid line info = inr (info', args) ->
  args <> [] /\ Forall is_word args.
Proof.
  intros H. destruct (parse_line_args pid line info info' args H)
    as (name & rest & T & A).
  pose proof (tokens_are_words line) as W. rewrite T in W.
  inversion W as [|x l Wn Wr]; subst.
  split; [discriminate|].
  constructor; [exact Wn | apply argument_tokens_are_words; exact Wr].
Qed.

Lemma parse_line_arguments_are_words_witness :
  ["echo"; "'a"; "b'"] <> [] /\ Forall is_word ["echo"; "'a"; "b'"].
Proof.
  exact (parse_line_arguments_are_words 100 "echo 'a b'"
           (command 0 0 0 EmptyString EmptyString)
           (command 0 0 0 EmptyString EmptyString)
           ["echo"; "'a"; "b'"] eq_refl).
Defined.

(** ** The [status] built-in *)

(** X25.  [status] prints the decoding of [exit_status] with [printf] on the
    shell's own standard output and changes nothing: the redirections and
    the background flag parsed on its line are ignored, its arguments are
    ignored, no process is created, and [*info] is returned as it was, so
    asking again gives the same answer. *)
Theorem execute_cmd_status_only_reads (rest : list string) (info : shell_info)
  (p : process) :
  fst (wait_answer p (exit_status info)) <= 0 ->
  exists p',
    execute_cmd ("status" :: rest) info p = Ret (1, info) p'
    /\ trace p' =
         trace p ++ [EvPrintf (status_text (exit_status info)); EvFflush;
                     EvWaitpid (-1) WNOHANG (fst (wait_answer p (exit_status info)))]
    /\ environment p' = environment p.
Proof.
  intros H. rewrite execute_cmd_status, run_bind, my_status_run.
  set (q := log EvFflush (log (EvPrintf (status_text (exit_status info))) p)).
  destruct (reap_idle info q H) as (p' & R & T & _). cbv beta in R.
  rewrite run_bind, R. exists p'.
  split; [reflexivity|]. split.
  - rewrite T. subst q. trace_norm. reflexivity.
  - destruct (reap_returns (S (List.length (waits q))) info q) as (i & p'' & R' & E);
      [lia|].
    rewrite R in R'. inversion R'; subst. rewrite E. reflexivity.
Qed.

Lemma execute_cmd_status_only_reads_witness :
  exists p',
    execute_cmd ["status"; "&"] (command 1 1 0 "out" EmptyString)
                (shell_process 0 0 [])
    = Ret (1, command 1 1 0 "out" EmptyString) p'.
Proof.
  destruct (execute_cmd_status_only_reads ["status"; "&"]
              (command 1 1 0 "out" EmptyString) (shell_process 0 0 []))
    as (p' & R & _).
  - cbn. lia.
  - exists p'. exact R.
Defined.
